(** * songle.py: key-case conversion, record mapping and the HTTP facade

    A shallow embedding of [src/songle.py].  Python values are an inductive
    type [value]; a [dict] is an association list in insertion order with
    Python's assignment semantics ([dict_set]); exceptions are the [Error]
    side of [result].

    Text.  A Python [str] is modelled as a Rocq [string] whose characters
    are the code points 0 to 255; the JSON keys of the service lie within
    them.  On these code points [str.lower] works character by character:
    it lowers the letters A-Z and the uppercase letters of the upper half,
    192 to 214 and 216 to 222, by adding 32, and leaves every other
    character as it is; this is [str_lower].  The character classes of the
    two regular expressions are ranges of code points, A-Z, a-z and 0-9. *)

From Stdlib Require Import List String Ascii ZArith Bool Arith Lia DecimalString.
Import ListNotations.

Local Open Scope bool_scope.

(** ** Characters and the character classes of the patterns *)

Module Chr.

Definition in_range (lo hi : nat) (c : ascii) : bool :=
  let n := nat_of_ascii c in (lo <=? n)%nat && (n <=? hi)%nat.

(** [[A-Z]] *)
Definition is_upper : ascii -> bool := in_range 65 90.
(** [[a-z]] *)
Definition is_lower : ascii -> bool := in_range 97 122.
(** [[0-9]] *)
Definition is_digit : ascii -> bool := in_range 48 57.
(** [[a-z0-9]] *)
Definition is_lower_or_digit (c : ascii) : bool := is_lower c || is_digit c.
(** [.] without [re.DOTALL]: every character but the line feed. *)
Definition dot (c : ascii) : bool := negb (nat_of_ascii c =? 10)%nat.

Definition underscore : ascii := "_"%char.

(** The uppercase letters among the code points 0 to 255: A-Z, and 192 to
    222 but for the multiplication sign 215. *)
Definition is_uppercase (c : ascii) : bool :=
  is_upper c || in_range 192 214 c || in_range 216 222 c.

(** One character of [str.lower()]: each uppercase letter has its
    lowercase letter 32 code points above it. *)
Definition lower (c : ascii) : ascii :=
  if is_uppercase c then ascii_of_nat (nat_of_ascii c + 32) else c.

End Chr.

(** [str.lower()] *)
Definition str_lower (s : list ascii) : list ascii := map Chr.lower s.

(** ** [re.sub]

    [re.sub(pattern, repl, s)] scans [s] from the left.  Where the pattern
    matches at the current position the expansion of [repl] is emitted and
    the scan resumes after the match; elsewhere the current character is
    copied.  A pattern is given by its matcher at a position: the captured
    groups 1 and 2 and the text left after the match.  Both patterns of
    [_to_snake_case] consume at least two characters, so a scan of [s] needs
    at most [length s] steps; [sub] supplies one more. *)

Module Re.

Record groups := Groups { g1 : list ascii; g2 : list ascii; after : list ascii }.

Definition pattern := list ascii -> option groups.

(** The template [r"\1_\2"]. *)
Definition repl_1_2 (m : groups) : list ascii :=
  g1 m ++ Chr.underscore :: g2 m.

Fixpoint sub_from (pat : pattern) (repl : groups -> list ascii)
         (fuel : nat) (s : list ascii) : list ascii :=
  match fuel with
  | O => s
  | S fuel' =>
      match pat s with
      | Some m => repl m ++ sub_from pat repl fuel' (after m)
      | None =>
          match s with
          | [] => []
          | c :: t => c :: sub_from pat repl fuel' t
          end
      end
  end.

Definition sub (pat : pattern) (repl : groups -> list ascii)
           (s : list ascii) : list ascii :=
  sub_from pat repl (S (List.length s)) s.

(** The longest prefix of characters in a class, and what follows it:
    the greedy [+] and [*] on a character class. *)
Fixpoint span (p : ascii -> bool) (s : list ascii) : list ascii * list ascii :=
  match s with
  | c :: t => if p c then let (run, rest) := span p t in (c :: run, rest)
              else ([], s)
  | [] => ([], [])
  end.

(** ["(.)([A-Z][a-z]+)"] *)
Definition pat_word : pattern := fun s =>
  match s with
  | c :: u :: l :: t =>
      if Chr.dot c && Chr.is_upper u && Chr.is_lower l
      then let (run, rest) := span Chr.is_lower t in
           Some (Groups [c] (u :: l :: run) rest)
      else None
  | _ => None
  end.

(** ["([a-z0-9])([A-Z])"] *)
Definition pat_hump : pattern := fun s =>
  match s with
  | a :: b :: t =>
      if Chr.is_lower_or_digit a && Chr.is_upper b
      then Some (Groups [a] [b] t)
      else None
  | _ => None
  end.

(** A pattern that matches no empty text: what [sub] relies on. *)
Definition consumes (pat : pattern) : Prop :=
  forall s m, pat s = Some m -> (List.length (after m) < List.length s)%nat.

End Re.

(** ** [_to_snake_case] *)

Definition snake_chars (name : list ascii) : list ascii :=
  let s1 := Re.sub Re.pat_word Re.repl_1_2 name in
  str_lower (Re.sub Re.pat_hump Re.repl_1_2 s1).

Definition _to_snake_case (name : string) : string :=
  string_of_list_ascii (snake_chars (list_ascii_of_string name)).


(** ** Python values

    What [response.json()] returns, and what [_from_dict] builds.  A [dict]
    keeps its items in insertion order; a dataclass instance is its class
    name with its attributes in declaration order. *)

Unset Elimination Schemes.
Inductive value : Type :=
| VNone
| VBool (b : bool)
| VInt (n : Z)
| VFloat (bits : Z)                              (* the 64 bits of a double *)
| VStr (s : string)
| VList (elems : list value)
| VDict (items : list (string * value))
| VObj (cls : string) (attrs : list (string * value)).
Set Elimination Schemes.

(** Structural induction through the lists of a [value]. *)
Section ValueInduction.
Variable P : value -> Prop.
Hypothesis P_none : P VNone.
Hypothesis P_bool : forall b, P (VBool b).
Hypothesis P_int : forall n, P (VInt n).
Hypothesis P_float : forall bits, P (VFloat bits).
Hypothesis P_str : forall s, P (VStr s).
Hypothesis P_list : forall elems, Forall P elems -> P (VList elems).
Hypothesis P_dict :
  forall items, Forall (fun kv => P (snd kv)) items -> P (VDict items).
Hypothesis P_obj :
  forall cls attrs, Forall (fun kv => P (snd kv)) attrs -> P (VObj cls attrs).

Fixpoint value_ind (v : value) : P v :=
  let fix elems_ind (l : list value) : Forall P l :=
    match l with
    | [] => Forall_nil _
    | x :: r => Forall_cons x (value_ind x) (elems_ind r)
    end in
  let fix items_ind (l : list (string * value))
    : Forall (fun kv => P (snd kv)) l :=
    match l with
    | [] => Forall_nil _
    | kv :: r =>
        @Forall_cons _ (fun kv => P (snd kv)) kv r (value_ind (snd kv)) (items_ind r)
    end in
  match v with
  | VNone => P_none
  | VBool b => P_bool b
  | VInt n => P_int n
  | VFloat bits => P_float bits
  | VStr s => P_str s
  | VList elems => P_list elems (elems_ind elems)
  | VDict items => P_dict items (items_ind items)
  | VObj cls attrs => P_obj cls attrs (items_ind attrs)
  end.
End ValueInduction.

Definition dict := list (string * value).

(** [d[k]] as [d.get(k)] *)
Fixpoint dict_get (d : dict) (k : string) : option value :=
  match d with
  | [] => None
  | (k', v') :: r => if String.eqb k' k then Some v' else dict_get r k
  end.

(** [d[k] = v]: an existing key keeps its place, a new one goes last. *)
Fixpoint dict_set (d : dict) (k : string) (v : value) : dict :=
  match d with
  | [] => [(k, v)]
  | (k', v') :: r =>
      if String.eqb k' k then (k', v) :: r else (k', v') :: dict_set r k v
  end.

Definition keys (d : dict) : list string := map fst d.

(** [{k: v for k, v in pairs}] started from [acc]. *)
Definition dict_of (pairs : list (string * value)) (acc : dict) : dict :=
  fold_left (fun d kv => dict_set d (fst kv) (snd kv)) pairs acc.

(** ** [_convert_keys_to_snake_case] *)

Fixpoint _convert_keys_to_snake_case (data : value) : value :=
  match data with
  | VDict items =>
      VDict ((fix comprehension (its : list (string * value)) (acc : dict) : dict :=
                match its with
                | [] => acc
                | (k, v) :: rest =>
                    comprehension rest
                      (dict_set acc (_to_snake_case k) (_convert_keys_to_snake_case v))
                end) items [])
  | VList elems => VList (map _convert_keys_to_snake_case elems)
  | _ => data
  end.

(** ** Types seen by [_from_dict]

    A field's annotation is a class that is not a dataclass ([int], [str],
    ...), an alias [list[...]] (its [__origin__] is [list], its [__args__]
    the arguments) or a dataclass.  A dataclass is its name and its fields
    in declaration order, each with its default if it has one; the names of
    the fields of a dataclass are pairwise distinct. *)

Unset Elimination Schemes.
Inductive pytype : Type :=
| TClass (name : string)
| TList (args : list pytype)
| TData (name : string) (fields : list field)
with field : Type :=
| Field (fname : string) (ftype : pytype) (fdefault : option value).
Set Elimination Schemes.

Definition field_name (f : field) : string := let (n, _, _) := f in n.
Definition field_default (f : field) : option value := let (_, _, d) := f in d.

(** [dataclasses.is_dataclass] on a type *)
Definition is_dataclass (t : pytype) : bool :=
  match t with TData _ _ => true | _ => false end.

(** [field_types = {f.name: f.type for f in dataclasses.fields(model)}],
    looked up at [name]. *)
Fixpoint field_types (fields : list field) (name : string) : option pytype :=
  match fields with
  | [] => None
  | Field n t _ :: r => if String.eqb n name then Some t else field_types r name
  end.

(** ** Exceptions *)

Inductive type_error : Type :=
| NotADataclass (model : pytype)
    (* "Expected a dataclass type, but got {model}." *)
| MissingArguments (cls : string) (names : list string)
    (* "{cls}.__init__() missing n required positional arguments: {names}" *)
| NotIterable.

Inductive exn : Type :=
| TypeError (e : type_error)
| AttributeError (attr : string)
| HTTPError (status : Z) (body : string)        (* requests.exceptions.HTTPError *)
| RequestException (descr : string)             (* any other RequestException *)
| OtherException (descr : string)
| SongleApiException (status_code : Z) (message : string).

Inductive result (A : Type) : Type :=
| Ok (a : A)
| Error (e : exn).
Arguments Ok {A} a.
Arguments Error {A} e.

Definition bind {A B : Type} (r : result A) (k : A -> result B) : result B :=
  match r with
  | Ok a => k a
  | Error e => Error e
  end.

Notation "x <- r ;; k" := (bind r (fun x => k))
  (at level 61, r at next level, right associativity).

(** ** [_from_dict] *)

(** The call of [model] with [kwargs] as keyword arguments: the [__init__]
    that [@dataclass] generates.  Every
    keyword of [kwargs] is a field name here.  A field takes its keyword, or
    else its default; fields with neither are reported together. *)
Definition missing_fields (fields : list field) (kwargs : dict) : list string :=
  map field_name
      (filter (fun f => match dict_get kwargs (field_name f), field_default f with
                        | None, None => true
                        | _, _ => false
                        end) fields).

Definition attr_of (kwargs : dict) (f : field) : string * value :=
  (field_name f,
   match dict_get kwargs (field_name f) with
   | Some v => v
   | None => match field_default f with Some d => d | None => VNone end
   end).

Definition construct (cls : string) (fields : list field) (kwargs : dict) : result value :=
  match missing_fields fields kwargs with
  | [] => Ok (VObj cls (map (attr_of kwargs) fields))
  | names => Error (TypeError (MissingArguments cls names))
  end.

Section Loop.

(** The recursive calls of [_from_dict]. *)
Variable rec : pytype -> value -> result value.

(** [[_from_dict(element_type, item) for item in value]] *)
Fixpoint each_item (element_type : pytype) (l : list value) : result (list value) :=
  match l with
  | [] => Ok []
  | item :: l' =>
      r <- rec element_type item ;;
      rs <- each_item element_type l' ;;
      Ok (r :: rs)
  end.

(** The body of the [for] loop at one item of [data]: the [kwargs] after it. *)
Definition loop_body (fields : list field) (kwargs : dict)
           (name : string) (v : value) : result dict :=
  match field_types fields name with
  | None => Ok kwargs                                           (* continue *)
  | Some field_type =>
      match field_type with
      | TList (TData ecls efields :: _) =>
          match v with
          | VList l =>
              rs <- each_item (TData ecls efields) l ;;
              Ok (dict_set kwargs name (VList rs))
          | _ => Ok kwargs
          end
      | TData _ _ =>
          match v with
          | VDict _ =>
              r <- rec field_type v ;;
              Ok (dict_set kwargs name r)
          | _ => Ok kwargs
          end
      | _ => Ok (dict_set kwargs name v)
      end
  end.

(** [for name, value in data.items(): ...] *)
Fixpoint for_items (fields : list field) (its : list (string * value))
         (kwargs : dict) : result dict :=
  match its with
  | [] => Ok kwargs
  | (name, v) :: rest =>
      kwargs' <- loop_body fields kwargs name v ;;
      for_items fields rest kwargs'
  end.

End Loop.

Fixpoint _from_dict (model : pytype) (data : value) {struct data} : result value :=
  match model with
  | TData cls fields =>
      match data with
      | VDict items =>
          kwargs <- for_items _from_dict fields items [] ;;
          construct cls fields kwargs
      | _ => Error (AttributeError "items")
      end
  | _ => Error (TypeError (NotADataclass model))
  end.

(** ** The data models *)

Definition t_int : pytype := TClass "int".
Definition t_str : pytype := TClass "str".
Definition t_float : pytype := TClass "float".
Definition t_bool : pytype := TClass "bool".

Definition required (name : string) (t : pytype) : field := Field name t None.

Definition Artist : pytype :=
  TData "Artist" [required "id" t_int; required "name" t_str].

Definition Song : pytype :=
  TData "Song"
    [required "id" t_int; required "title" t_str; required "url" t_str;
     required "permalink" t_str; required "artist" Artist;
     required "duration" t_float; required "code" t_str;
     required "rms_amplitude" t_float; required "created_at" t_str;
     required "updated_at" t_str; required "recognized_at" t_str].

Definition Beat : pytype :=
  TData "Beat"
    [required "index" t_int; required "start" t_int; required "count" t_int;
     required "position" t_int; required "bpm" t_int].

Definition BeatInfo : pytype :=
  TData "BeatInfo" [required "beats" (TList [Beat])].

Definition Revision : pytype :=
  TData "Revision"
    [required "id" t_int; required "created_at" t_str; required "updated_at" t_str].

Definition Chord : pytype :=
  TData "Chord"
    [required "index" t_int; required "start" t_int; required "duration" t_int;
     required "name" t_str].

Definition ChordInfo : pytype :=
  TData "ChordInfo" [required "chords" (TList [Chord])].

Definition Note : pytype :=
  TData "Note"
    [required "index" t_int; required "start" t_int; required "duration" t_int].

Definition MelodyInfo : pytype :=
  TData "MelodyInfo" [required "notes" (TList [Note])].

Definition Repeat : pytype :=
  TData "Repeat"
    [required "index" t_int; required "start" t_int; required "duration" t_int].

Definition ChorusSegment : pytype :=
  TData "ChorusSegment"
    [required "index" t_int; required "is_chorus" t_bool;
     required "duration" t_int; required "repeats" (TList [Repeat])].

Definition RepeatSegment : pytype :=
  TData "RepeatSegment"
    [required "index" t_int; required "is_chorus" t_bool;
     required "duration" t_int; required "repeats" (TList [Repeat])].

Definition ChorusInfo : pytype :=
  TData "ChorusInfo"
    [required "chorus_segments" (TList [ChorusSegment]);
     required "repeat_segments" (TList [RepeatSegment])].

(** ** The client

    The transport is the injected [requests.Session]: what its [get] does
    with a URL and query parameters, either raising or returning a response.
    A response is its status code, its body text and what its [json()]
    does. *)

Record response : Type := Response {
  resp_status_code : Z;
  resp_text : string;
  resp_json : result value
}.

Definition query := list (string * string).

Definition session := string -> query -> result response.

(** [Response.raise_for_status] of the requests library: an [HTTPError]
    carrying the response for a status from 400 to 599, nothing otherwise. *)
Definition raise_for_status (r : response) : result unit :=
  if (400 <=? resp_status_code r)%Z && (resp_status_code r <? 600)%Z
  then Error (HTTPError (resp_status_code r) (resp_text r))
  else Ok tt.

Module Songle.

Definition _BASE_URL : string := "https://widget.songle.jp/".

Definition _build_url (path : string) : string := (_BASE_URL ++ path)%string.

Definition _get (sess : session) (path : string) (params : query) : result value :=
  let url := _build_url path in
  let attempt :=
    response <- sess url params ;;
    _ <- raise_for_status response ;;
    resp_json response in
  match attempt with
  | Ok v => Ok v
  | Error (HTTPError status body) =>
      Error (SongleApiException status ("Error response from API: " ++ body)%string)
  | Error (RequestException descr) =>
      Error (SongleApiException 500 ("Request failed: " ++ descr)%string)
  | Error e => Error e
  end.

Definition _fetch_and_parse (sess : session) (path : string) (model : pytype)
           (params : query) : result value :=
  raw_data <- _get sess path params ;;
  let converted_data := _convert_keys_to_snake_case raw_data in
  _from_dict model converted_data.

(** [for item in converted_data]: the elements of a list, the keys of a
    dict, the characters of a string; the other values are not iterable. *)
Definition iterate (v : value) : result (list value) :=
  match v with
  | VList elems => Ok elems
  | VDict items => Ok (map (fun kv => VStr (fst kv)) items)
  | VStr s => Ok (map (fun c => VStr (String c EmptyString)) (list_ascii_of_string s))
  | _ => Error (TypeError NotIterable)
  end.

Definition _fetch_and_parse_list (sess : session) (path : string) (model : pytype)
           (params : query) : result value :=
  raw_data <- _get sess path params ;;
  let converted_data := _convert_keys_to_snake_case raw_data in
  elems <- iterate converted_data ;;
  rs <- each_item _from_dict model elems ;;
  Ok (VList rs).

(** [str(revision_id)] *)
Definition str_of_int (n : Z) : string := NilZero.string_of_int (Z.to_int n).

(** [params = {"url": url}], then [params["revision_id"] = str(revision_id)]
    unless [revision_id is None]. *)
Definition map_params (url : string) (revision_id : option Z) : query :=
  match revision_id with
  | Some r => [("url", url); ("revision_id", str_of_int r)]
  | None => [("url", url)]
  end%string.

Definition get_song_info (sess : session) (url : string) : result value :=
  _fetch_and_parse sess "api/v1/song.json" Song [("url", url)]%string.

Definition get_beats (sess : session) (url : string) (revision_id : option Z) :=
  _fetch_and_parse sess "api/v1/song/beat.json" BeatInfo (map_params url revision_id).

Definition get_beat_revisions (sess : session) (url : string) :=
  _fetch_and_parse_list sess "api/v1/song/beat_revisions.json" Revision
                        [("url", url)]%string.

Definition get_chords (sess : session) (url : string) (revision_id : option Z) :=
  _fetch_and_parse sess "api/v1/song/chord.json" ChordInfo (map_params url revision_id).

Definition get_chord_revisions (sess : session) (url : string) :=
  _fetch_and_parse_list sess "api/v1/song/chord_revisions.json" Revision
                        [("url", url)]%string.

Definition get_melody (sess : session) (url : string) (revision_id : option Z) :=
  _fetch_and_parse sess "api/v1/song/melody.json" MelodyInfo (map_params url revision_id).

Definition get_melody_revisions (sess : session) (url : string) :=
  _fetch_and_parse_list sess "api/v1/song/melody_revisions.json" Revision
                        [("url", url)]%string.

Definition get_chorus (sess : session) (url : string) (revision_id : option Z) :=
  _fetch_and_parse sess "api/v1/song/chorus.json" ChorusInfo (map_params url revision_id).

Definition get_chorus_revisions (sess : session) (url : string) :=
  _fetch_and_parse_list sess "api/v1/song/chorus_revisions.json" Revision
                        [("url", url)]%string.

Definition search_songs (sess : session) (q : string) :=
  _fetch_and_parse_list sess "api/v1/songs/search.json" Song [("q", q)]%string.

(** A call of one of the public methods. *)
Inductive operation : Type :=
| GetSongInfo (url : string)
| GetBeats (url : string) (revision_id : option Z)
| GetBeatRevisions (url : string)
| GetChords (url : string) (revision_id : option Z)
| GetChordRevisions (url : string)
| GetMelody (url : string) (revision_id : option Z)
| GetMelodyRevisions (url : string)
| GetChorus (url : string) (revision_id : option Z)
| GetChorusRevisions (url : string)
| SearchSongs (q : string).

Definition call (sess : session) (op : operation) : result value :=
  match op with
  | GetSongInfo url => get_song_info sess url
  | GetBeats url r => get_beats sess url r
  | GetBeatRevisions url => get_beat_revisions sess url
  | GetChords url r => get_chords sess url r
  | GetChordRevisions url => get_chord_revisions sess url
  | GetMelody url r => get_melody sess url r
  | GetMelodyRevisions url => get_melody_revisions sess url
  | GetChorus url r => get_chorus sess url r
  | GetChorusRevisions url => get_chorus_revisions sess url
  | SearchSongs q => search_songs sess q
  end.

End Songle.

(** ** The conversion in the words of its specification

    [separate dot prev s] copies [s] and puts a separator before a
    character [c] that has a predecessor [p] when [c] is an uppercase letter
    and either [p] is a lowercase letter or a digit, or [c] starts a
    capitalised word (the next character is a lowercase letter) and [p] is a
    character accepted by [dot]. *)

Definition next_is_lower (t : list ascii) : bool :=
  match t with
  | l :: _ => Chr.is_lower l
  | [] => false
  end.

Definition boundary (dot : ascii -> bool) (p c : ascii) (t : list ascii) : bool :=
  Chr.is_upper c && (Chr.is_lower_or_digit p || (dot p && next_is_lower t)).

Fixpoint separate (dot : ascii -> bool) (prev : option ascii) (s : list ascii)
  : list ascii :=
  match s with
  | [] => []
  | c :: t =>
      let rest := c :: separate dot (Some c) t in
      match prev with
      | Some p => if boundary dot p c t then Chr.underscore :: rest else rest
      | None => rest
      end
  end.



(** What the second substitution does after a character [p] that it has
    already copied. *)
Fixpoint humps (p : ascii) (x : list ascii) : list ascii :=
  match x with
  | [] => []
  | b :: r =>
      if Chr.is_lower_or_digit p && Chr.is_upper b
      then Chr.underscore :: b :: humps b r
      else b :: humps b r
  end.

(** ** Key normalisation in the words of its specification

    A mapping is rebuilt with every key converted and every value
    normalised; a sequence is normalised element by element; any other
    value is left as it is. *)

Definition is_scalar (v : value) : bool :=
  match v with
  | VList _ | VDict _ => false
  | _ => true
  end.

(** One item of the comprehension of [_convert_keys_to_snake_case]. *)
Definition convert_item (kv : string * value) : string * value :=
  (_to_snake_case (fst kv), _convert_keys_to_snake_case (snd kv)).

#[local] Set Warnings "-register-all".
Inductive Normalized : value -> value -> Prop :=
| Norm_scalar v :
    is_scalar v = true -> Normalized v v
| Norm_list elems elems' :
    Forall2 Normalized elems elems' -> Normalized (VList elems) (VList elems')
| Norm_dict items items' :
    NoDup (keys items') ->
    (forall k v, In (k, v) items -> In (_to_snake_case k) (keys items')) ->
    (forall k' v', In (k', v') items' ->
       exists k v, In (k, v) items /\ k' = _to_snake_case k /\ Normalized v v') ->
    Normalized (VDict items) (VDict items').

(** ** The field kinds of the specification

    [declared fields kv]: the key of the item [kv] names a field.
    [kind_mismatch t v]: the field is a nested record and [v] is no
    mapping, or the field is a list of nested records and [v] is no
    sequence. *)

Definition declared (fields : list field) (kv : string * value) : bool :=
  match field_types fields (fst kv) with
  | Some _ => true
  | None => false
  end.

Definition kind_mismatch (t : pytype) (v : value) : bool :=
  match t, v with
  | TData _ _, VDict _ => false
  | TData _ _, _ => true
  | TList (TData _ _ :: _), VList _ => false
  | TList (TData _ _ :: _), _ => true
  | _, _ => false
  end.

(** [dataclasses.fields] *)
Definition fields_of (t : pytype) : list field :=
  match t with
  | TData _ fields => fields
  | _ => []
  end.

(** ** Sample responses *)

Definition artist_data : value :=
  VDict [("id", VInt 2); ("name", VStr "A")]%string.

Definition song_items : list (string * value) :=
  [("id", VInt 1); ("title", VStr "T"); ("url", VStr "www.example.com/v");
   ("permalink", VStr "https://songle.jp/songs/1"); ("artist", artist_data);
   ("duration", VFloat 0); ("code", VStr "c"); ("rms_amplitude", VFloat 0);
   ("created_at", VStr "2020-01-01"); ("updated_at", VStr "2020-01-02");
   ("recognized_at", VStr "2020-01-03")]%string.

Definition artist_obj : value :=
  VObj "Artist" [("id", VInt 2); ("name", VStr "A")]%string.

Definition song_obj : value :=
  VObj "Song"
    [("id", VInt 1); ("title", VStr "T"); ("url", VStr "www.example.com/v");
     ("permalink", VStr "https://songle.jp/songs/1"); ("artist", artist_obj);
     ("duration", VFloat 0); ("code", VStr "c"); ("rms_amplitude", VFloat 0);
     ("created_at", VStr "2020-01-01"); ("updated_at", VStr "2020-01-02");
     ("recognized_at", VStr "2020-01-03")]%string.

Definition unused_future_field : string * value :=
  ("unused_future_field"%string, VInt 1).

Definition beat_data (index start count position bpm : Z) : value :=
  VDict [("index", VInt index); ("start", VInt start); ("count", VInt count);
         ("position", VInt position); ("bpm", VInt bpm)]%string.

Definition beat_obj (index start count position bpm : Z) : value :=
  VObj "Beat" [("index", VInt index); ("start", VInt start); ("count", VInt count);
               ("position", VInt position); ("bpm", VInt bpm)]%string.

(** A record with a required title, and one with an optional nested artist
    and an optional list of beats. *)
Definition Titled : pytype :=
  TData "Titled" [required "id" t_int; required "title" t_str].

Definition Album : pytype :=
  TData "Album"
    [required "id" t_int; Field "artist" Artist (Some VNone);
     Field "beats" (TList [Beat]) (Some (VList []))].

(** No call on a dataclass reports that its model is not one: neither the
    call itself, nor the calls it makes on the values inside [v]. *)
Definition accepted (v : value) : Prop :=
  forall model m, is_dataclass model = true ->
                  _from_dict model v <> Error (TypeError (NotADataclass m)).

(** ** Sample transports *)

(** A session whose [get] raises a [RequestException] that is no
    [HTTPError]: connection refused, timeout, ... *)
Definition refusing (descr : string) : session :=
  fun _ _ => Error (RequestException descr).

(** A session whose [get] returns a response. *)
Definition answering (status : Z) (text : string) (json : result value) : session :=
  fun _ _ => Ok (Response status text json).

(** The [status_code] of the [SongleApiException] that a call raised. *)
Definition status_of (r : result value) : option Z :=
  match r with
  | Error (SongleApiException status_code _) => Some status_code
  | _ => None
  end.

(** ** Notions used to state further properties of the code *)

(** A name without uppercase letters: none of A-Z, none of 192 to 214 and
    216 to 222. *)
Definition no_upper (s : string) : Prop :=
  Forall (fun c => Chr.is_uppercase c = false) (list_ascii_of_string s).

Definition is_underscore (c : ascii) : bool := (nat_of_ascii c =? 95)%nat.

Definition without_underscores (s : string) : string :=
  string_of_list_ascii
    (filter (fun c => negb (is_underscore c)) (list_ascii_of_string s)).

Definition lower_string (s : string) : string :=
  string_of_list_ascii (str_lower (list_ascii_of_string s)).

(** A value whose dicts, at every depth, have pairwise distinct keys
    without uppercase letters. *)
Fixpoint snake_keyed (v : value) : Prop :=
  match v with
  | VDict items =>
      NoDup (keys items) /\
      (fix all (l : list (string * value)) : Prop :=
         match l with
         | [] => True
         | (k, x) :: r => no_upper k /\ snake_keyed x /\ all r
         end) items
  | VList elems =>
      (fix all (l : list value) : Prop :=
         match l with
         | [] => True
         | x :: r => snake_keyed x /\ all r
         end) elems
  | _ => True
  end.

Definition field_type (f : field) : pytype := let (_, t, _) := f in t.

(** A field type that the loop copies as it is: neither a dataclass nor a
    [list] alias whose first argument is a dataclass. *)
Definition plain (t : pytype) : bool :=
  match t with
  | TData _ _ => false
  | TList (TData _ _ :: _) => false
  | _ => true
  end.

Definition is_dict (v : value) : bool :=
  match v with
  | VDict _ => true
  | _ => false
  end.

(** The exceptions that the two [except] clauses of [_get] catch. *)
Definition is_request_exception (e : exn) : bool :=
  match e with
  | HTTPError _ _ | RequestException _ => true
  | _ => false
  end.

(** A session whose [get] raises [e]. *)
Definition raising (e : exn) : session := fun _ _ => Error e.

(** * Properties *)

(** ** Characters *)

Ltac each_char c :=
  destruct c as [[] [] [] [] [] [] [] []]; vm_compute; try reflexivity; try discriminate.

Lemma upper_not_lower c : Chr.is_upper c = true -> Chr.is_lower c = false.
Proof. each_char c. Qed.

Lemma upper_not_digit c : Chr.is_upper c = true -> Chr.is_digit c = false.
Proof. each_char c. Qed.

Lemma lower_not_upper c : Chr.is_lower c = true -> Chr.is_upper c = false.
Proof. each_char c. Qed.

Lemma lower_is_not_upper c : Chr.is_upper (Chr.lower c) = false.
Proof. each_char c. Qed.


Lemma not_uppercase_not_upper c :
  Chr.is_uppercase c = false -> Chr.is_upper c = false.
Proof. each_char c. Qed.

Lemma lower_fixes c : Chr.is_uppercase c = false -> Chr.lower c = c.
Proof. unfold Chr.lower. now intros ->. Qed.


Lemma no_uppercase_no_upper s :
  Forall (fun c => Chr.is_uppercase c = false) s ->
  Forall (fun c => Chr.is_upper c = false) s.
Proof.
  intros H. eapply Forall_impl; [|exact H]. exact not_uppercase_not_upper.
Qed.

Lemma str_lower_fixes s :
  Forall (fun c => Chr.is_uppercase c = false) s -> str_lower s = s.
Proof.
  induction 1 as [|c s Hc _ IH]; simpl; [reflexivity|].
  now rewrite lower_fixes, IH.
Qed.

(** ** [re.sub] reaches the end of its input *)

Module ReFacts.
Import Re.

Lemma span_app p s : fst (span p s) ++ snd (span p s) = s.
Proof.
  induction s as [|c t IH]; simpl; [reflexivity|].
  destruct (p c); [|reflexivity].
  destruct (span p t) as [run rest]; simpl in *. now rewrite IH.
Qed.

Lemma span_run p s : Forall (fun c => p c = true) (fst (span p s)).
Proof.
  induction s as [|c t IH]; simpl; [constructor|].
  destruct (p c) eqn:E; [|constructor].
  destruct (span p t) as [run rest]; simpl in *. now constructor.
Qed.

Lemma span_length p s : (List.length (snd (span p s)) <= List.length s)%nat.
Proof.
  rewrite <- (span_app p s) at 2. rewrite length_app. lia.
Qed.

Lemma pat_word_consumes : consumes pat_word.
Proof.
  intros s m. unfold pat_word.
  destruct s as [|c [|u [|l t]]]; try discriminate.
  destruct (Chr.dot c && Chr.is_upper u && Chr.is_lower l); [|discriminate].
  pose proof (span_length Chr.is_lower t) as H.
  destruct (span Chr.is_lower t) as [run rest]; simpl in H.
  intros [= <-]; simpl. lia.
Qed.

Lemma pat_hump_consumes : consumes pat_hump.
Proof.
  intros s m. unfold pat_hump.
  destruct s as [|a [|b t]]; try discriminate.
  destruct (Chr.is_lower_or_digit a && Chr.is_upper b); [|discriminate].
  intros [= <-]; simpl. lia.
Qed.

Section Scan.
Variables (pat : pattern) (repl : groups -> list ascii).
Hypothesis Hpat : consumes pat.

Lemma sub_from_enough n : forall m s,
  (List.length s < n)%nat -> (List.length s < m)%nat ->
  sub_from pat repl n s = sub_from pat repl m s.
Proof.
  induction n as [|n IH]; intros m s Hn Hm; [lia|].
  destruct m as [|m]; [lia|]. simpl.
  destruct (pat s) as [g|] eqn:E.
  - apply Hpat in E. f_equal. apply IH; lia.
  - destruct s as [|c t]; [reflexivity|]. simpl in *. f_equal. apply IH; lia.
Qed.

Lemma sub_step s :
  sub pat repl s =
  match pat s with
  | Some m => repl m ++ sub pat repl (after m)
  | None => match s with
            | [] => []
            | c :: t => c :: sub pat repl t
            end
  end.
Proof.
  unfold sub at 1. simpl.
  destruct (pat s) as [g|] eqn:E.
  - apply Hpat in E. f_equal. unfold sub. apply sub_from_enough; lia.
  - destruct s as [|c t]; [reflexivity|]. reflexivity.
Qed.

End Scan.

End ReFacts.

(** ** The two substitutions put the separators at the boundaries *)

Module SnakeFacts.
Import Re ReFacts.

Lemma sub_nil pat repl : consumes pat -> pat [] = None -> sub pat repl [] = [].
Proof. intros H E. rewrite sub_step, E by assumption. reflexivity. Qed.

Lemma sub_hump_cons n : forall p x,
  (List.length x <= n)%nat ->
  sub pat_hump repl_1_2 (p :: x) = p :: humps p x.
Proof.
  induction n as [|n IH]; intros p x Hn.
  - destruct x; [|simpl in Hn; lia].
    rewrite sub_step by apply pat_hump_consumes. simpl.
    now rewrite sub_nil by (apply pat_hump_consumes || reflexivity).
  - destruct x as [|b r].
    + rewrite sub_step by apply pat_hump_consumes. simpl.
      now rewrite sub_nil by (apply pat_hump_consumes || reflexivity).
    + rewrite sub_step by apply pat_hump_consumes. simpl in *.
      destruct (Chr.is_lower_or_digit p && Chr.is_upper b) eqn:E.
      * simpl. unfold repl_1_2; simpl. do 3 f_equal.
        destruct r as [|b' r'].
        { now rewrite sub_nil by (apply pat_hump_consumes || reflexivity). }
        rewrite IH by (simpl in *; lia). simpl.
        apply andb_true_iff in E as [_ Hb].
        unfold Chr.is_lower_or_digit.
        now rewrite (upper_not_lower _ Hb), (upper_not_digit _ Hb).
      * f_equal. apply IH. lia.
Qed.

Lemma last_cons (r : list ascii) : forall b p, last (b :: r) p = last r b.
Proof.
  induction r as [|c r IH]; intros b p; [reflexivity|].
  change (last (b :: c :: r) p) with (last (c :: r) p). now rewrite !IH.
Qed.

Lemma humps_app p x y : humps p (x ++ y) = humps p x ++ humps (last x p) y.
Proof.
  revert p. induction x as [|b r IH]; intros p; [reflexivity|].
  simpl humps at 1 2. rewrite IH.
  rewrite last_cons. simpl. destruct (Chr.is_lower_or_digit p && Chr.is_upper b); reflexivity.
Qed.

Lemma humps_run p run :
  Forall (fun c => Chr.is_lower c = true) run -> humps p run = run.
Proof.
  intros H. revert p. induction H as [|c r Hc _ IH]; intros p; [reflexivity|].
  simpl. rewrite (lower_not_upper _ Hc), andb_false_r. now rewrite IH.
Qed.

Lemma separate_run dot p run rest :
  Forall (fun c => Chr.is_lower c = true) run ->
  separate dot (Some p) (run ++ rest) = run ++ separate dot (Some (last run p)) rest.
Proof.
  intros H. revert p. induction H as [|c r Hc _ IH]; intros p; [reflexivity|].
  cbn [app separate]. unfold boundary at 1. rewrite (lower_not_upper _ Hc). simpl andb.
  rewrite IH, (last_cons r c p). reflexivity.
Qed.

Lemma last_run_lower run l :
  Chr.is_lower l = true ->
  Forall (fun c => Chr.is_lower c = true) run ->
  Chr.is_lower (last run l) = true.
Proof.
  intros Hl H. induction H as [|c r Hc _ IH]; [exact Hl|].
  simpl. destruct r; [exact Hc | exact IH].
Qed.

Lemma join dot p c t X :
  Chr.is_lower_or_digit p && Chr.is_upper c = boundary dot p c t ->
  humps c X = separate dot (Some c) t ->
  humps p (c :: X) = separate dot (Some p) (c :: t).
Proof.
  simpl. intros -> ->. destruct (boundary dot p c t); reflexivity.
Qed.

(** After a character [p] at which the first substitution is looking for
    a match, the two substitutions together do what [separate] does. *)
Lemma word_then_hump n : forall p t,
  (List.length t <= n)%nat ->
  exists X, sub pat_word repl_1_2 (p :: t) = p :: X /\
            humps p X = separate Chr.dot (Some p) t.
Proof.
  induction n as [|n IH]; intros p t Hn.
  { destruct t; [|simpl in Hn; lia]. exists [].
    rewrite sub_step by apply pat_word_consumes. simpl.
    rewrite sub_nil by (apply pat_word_consumes || reflexivity). auto. }
  rewrite sub_step by apply pat_word_consumes.
  destruct t as [|u t1].
  { exists []. simpl.
    rewrite sub_nil by (apply pat_word_consumes || reflexivity). auto. }
  assert (Hnone : pat_word (p :: u :: t1) = None ->
                  exists X, p :: sub pat_word repl_1_2 (u :: t1) = p :: X /\
                            humps p X = separate Chr.dot (Some p) (u :: t1)).
  { intros E. destruct (IH u t1) as (X' & HX' & HH); [simpl in Hn; lia|].
    exists (u :: X'). rewrite HX'. split; [reflexivity|].
    apply join; [|exact HH].
    unfold boundary. unfold pat_word in E.
    destruct t1 as [|l t2]; simpl.
    - now rewrite andb_false_r, orb_false_r, andb_comm.
    - destruct (Chr.dot p), (Chr.is_upper u), (Chr.is_lower l),
        (Chr.is_lower_or_digit p); simpl in *; try reflexivity;
        destruct (span Chr.is_lower t2); discriminate. }
  destruct (pat_word (p :: u :: t1)) as [m|] eqn:E; [|now apply Hnone].
  clear Hnone. unfold pat_word in E.
  destruct t1 as [|l t2]; [discriminate|].
  destruct (Chr.dot p && Chr.is_upper u && Chr.is_lower l) eqn:C; [|discriminate].
  apply andb_true_iff in C as [C Hl]. apply andb_true_iff in C as [Hp Hu].
  pose proof (span_app Chr.is_lower t2) as Happ.
  pose proof (span_run Chr.is_lower t2) as Hrun.
  pose proof (span_length Chr.is_lower t2) as Hlen.
  destruct (span Chr.is_lower t2) as [run rest]; simpl in Happ, Hrun, Hlen.
  injection E as <-. unfold repl_1_2; simpl.
  exists (Chr.underscore :: u :: l :: run ++ sub pat_word repl_1_2 rest).
  split; [reflexivity|].
  subst t2.
  assert (Hz := last_run_lower run l Hl Hrun).
  cbn [humps separate]. unfold boundary at 1.
  replace (Chr.is_upper Chr.underscore) with false by reflexivity.
  replace (Chr.is_lower_or_digit Chr.underscore) with false by reflexivity.
  rewrite Hu, Hp, (lower_not_upper _ Hl). cbn [next_is_lower]. rewrite Hl.
  unfold boundary at 1. rewrite (lower_not_upper _ Hl).
  rewrite !andb_false_r, orb_true_r. cbn [andb].
  rewrite humps_app, humps_run, separate_run by assumption.
  do 3 f_equal. f_equal.
  destruct rest as [|p' t3].
  { now rewrite sub_nil by (apply pat_word_consumes || reflexivity). }
  destruct (IH p' t3) as (X' & HX' & HH).
  { simpl in Hn, Hlen. rewrite length_app in Hn. simpl in Hn. lia. }
  rewrite HX'. apply join; [|exact HH].
  unfold boundary, Chr.is_lower_or_digit. rewrite Hz. simpl.
  now rewrite andb_true_r.
Qed.

(** The characters of [_to_snake_case]: the separators of [separate],
    lowered. *)
Lemma snake_chars_separate s :
  snake_chars s = str_lower (separate Chr.dot None s).
Proof.
  unfold snake_chars. f_equal.
  destruct s as [|p t].
  { rewrite (sub_nil pat_word) by (apply pat_word_consumes || reflexivity).
    now rewrite sub_nil by (apply pat_hump_consumes || reflexivity). }
  destruct (word_then_hump (List.length t) p t (le_n _)) as (X & -> & HX).
  rewrite (sub_hump_cons (List.length X)) by apply le_n.
  simpl. now rewrite HX.
Qed.

Lemma pat_word_lowered s :
  Forall (fun c => Chr.is_upper c = false) s -> sub pat_word repl_1_2 s = s.
Proof.
  induction 1 as [|c t Hc Ht IH].
  - now rewrite sub_nil by (apply pat_word_consumes || reflexivity).
  - rewrite sub_step by apply pat_word_consumes.
    replace (pat_word (c :: t)) with (@None groups); [now rewrite IH|].
    unfold pat_word. destruct Ht as [|u t' Hu _]; [reflexivity|].
    destruct t'; [reflexivity|]. now rewrite Hu, andb_false_r.
Qed.

Lemma pat_hump_lowered s :
  Forall (fun c => Chr.is_upper c = false) s -> sub pat_hump repl_1_2 s = s.
Proof.
  induction 1 as [|c t Hc Ht IH].
  - now rewrite sub_nil by (apply pat_hump_consumes || reflexivity).
  - rewrite sub_step by apply pat_hump_consumes.
    replace (pat_hump (c :: t)) with (@None groups); [now rewrite IH|].
    unfold pat_hump. destruct Ht as [|u t' Hu _]; [reflexivity|].
    now rewrite Hu, andb_false_r.
Qed.


Lemma snake_chars_lowered s :
  Forall (fun c => Chr.is_uppercase c = false) s -> snake_chars s = s.
Proof.
  intros H. unfold snake_chars.
  rewrite pat_word_lowered, pat_hump_lowered by now apply no_uppercase_no_upper.
  now apply str_lower_fixes.
Qed.



End SnakeFacts.

(** ** Dictionaries *)

Module DictFacts.

Lemma dict_set_keys d k v :
  keys (dict_set d k v) = if existsb (String.eqb k) (keys d) then keys d else keys d ++ [k].
Proof.
  induction d as [|[k' v'] r IH]; simpl; [reflexivity|].
  rewrite (String.eqb_sym k k').
  destruct (String.eqb k' k) eqn:E; simpl; [reflexivity|].
  rewrite IH. unfold keys. now destruct (existsb _ _).
Qed.

Lemma existsb_eqb_In k l : existsb (String.eqb k) l = true <-> In k l.
Proof.
  rewrite existsb_exists. split.
  - intros (x & Hx & E). apply String.eqb_eq in E. now subst.
  - intros H. exists k. split; [exact H | apply String.eqb_refl].
Qed.

Lemma dict_set_fresh d k v : ~ In k (keys d) -> dict_set d k v = d ++ [(k, v)].
Proof.
  induction d as [|[k' v'] r IH]; simpl; intros H; [reflexivity|].
  destruct (String.eqb k' k) eqn:E.
  - apply String.eqb_eq in E. tauto.
  - rewrite IH by tauto. reflexivity.
Qed.

Lemma dict_set_In d k v kv :
  In kv (dict_set d k v) -> In kv d \/ kv = (k, v).
Proof.
  induction d as [|[k' v'] r IH]; simpl.
  - intros [<-|[]]. now right.
  - destruct (String.eqb k' k) eqn:E; simpl.
    + apply String.eqb_eq in E. subst k'. intros [<-|H]; auto.
    + intros [<-|H]; auto. destruct (IH H); auto.
Qed.

Lemma dict_set_NoDup d k v : NoDup (keys d) -> NoDup (keys (dict_set d k v)).
Proof.
  intros H. rewrite dict_set_keys.
  destruct (existsb (String.eqb k) (keys d)) eqn:E; [exact H|].
  apply NoDup_app; [exact H | repeat constructor; simpl; tauto |].
  intros x Hx [Hk|[]]. subst x.
  apply existsb_eqb_In in Hx. congruence.
Qed.

Lemma dict_set_has_key d k v : In k (keys (dict_set d k v)).
Proof.
  rewrite dict_set_keys.
  destruct (existsb (String.eqb k) (keys d)) eqn:E.
  - now apply existsb_eqb_In.
  - apply in_or_app. right. now left.
Qed.

Lemma dict_set_keeps_keys d k v x : In x (keys d) -> In x (keys (dict_set d k v)).
Proof.
  rewrite dict_set_keys. destruct (existsb _ _); [auto|].
  intros H. apply in_or_app. now left.
Qed.

Lemma dict_get_set d k v : dict_get (dict_set d k v) k = Some v.
Proof.
  induction d as [|[k' v'] r IH]; simpl.
  - now rewrite String.eqb_refl.
  - destruct (String.eqb k' k) eqn:E; simpl; now rewrite E.
Qed.

Lemma dict_get_set_other d k v x :
  x <> k -> dict_get (dict_set d k v) x = dict_get d x.
Proof.
  intros Hx. induction d as [|[k' v'] r IH]; simpl.
  - destruct (String.eqb k x) eqn:E; [|reflexivity].
    apply String.eqb_eq in E. congruence.
  - destruct (String.eqb k' k) eqn:E; simpl.
    + apply String.eqb_eq in E. subst k'.
      destruct (String.eqb k x) eqn:E'; [|reflexivity].
      apply String.eqb_eq in E'. congruence.
    + now rewrite IH.
Qed.

Lemma dict_of_NoDup pairs : forall acc,
  NoDup (keys acc) -> NoDup (keys (dict_of pairs acc)).
Proof.
  induction pairs as [|[k v] r IH]; intros acc H; simpl; [exact H|].
  apply IH. now apply dict_set_NoDup.
Qed.

Lemma dict_of_keeps_keys pairs : forall acc x,
  In x (keys acc) -> In x (keys (dict_of pairs acc)).
Proof.
  induction pairs as [|[k v] r IH]; intros acc x H; simpl; [exact H|].
  apply IH. now apply dict_set_keeps_keys.
Qed.

Lemma dict_of_has_keys pairs : forall acc k v,
  In (k, v) pairs -> In k (keys (dict_of pairs acc)).
Proof.
  induction pairs as [|[k' v'] r IH]; intros acc k v; simpl; [tauto|].
  intros [H|H].
  - injection H as -> ->. apply dict_of_keeps_keys, dict_set_has_key.
  - now apply (IH _ k v).
Qed.

Lemma dict_of_In pairs : forall acc kv,
  In kv (dict_of pairs acc) -> In kv acc \/ In kv pairs.
Proof.
  induction pairs as [|[k v] r IH]; intros acc kv; simpl; [tauto|].
  intros H. destruct (IH _ _ H) as [H'|H']; [|tauto].
  destruct (dict_set_In _ _ _ _ H'); auto.
Qed.

(** Items with pairwise distinct keys make the dictionary that lists them. *)
Lemma dict_of_distinct pairs : forall acc,
  NoDup (keys (acc ++ pairs)) -> dict_of pairs acc = acc ++ pairs.
Proof.
  induction pairs as [|[k v] r IH]; intros acc H; simpl.
  - now rewrite app_nil_r.
  - assert (Hk : ~ In k (keys acc)).
    { unfold keys in *. rewrite map_app in H. simpl in H.
      apply NoDup_remove_2 in H. intros Hin. apply H, in_or_app. now left. }
    rewrite dict_set_fresh by exact Hk.
    rewrite IH; rewrite <- app_assoc; [reflexivity | exact H].
Qed.

End DictFacts.

(** ** [_to_snake_case] *)

Section SnakeCase.
Import SnakeFacts.




End SnakeCase.



(** ** [_convert_keys_to_snake_case] *)

Section ConvertKeys.
Import DictFacts.

Lemma convert_dict items :
  _convert_keys_to_snake_case (VDict items) =
  VDict (dict_of (map convert_item items) []).
Proof.
  simpl. f_equal. generalize (@nil (string * value)) as acc.
  induction items as [|[k v] r IH]; intros acc; [reflexivity|].
  simpl. apply IH.
Qed.

Lemma convert_list elems :
  _convert_keys_to_snake_case (VList elems) =
  VList (map _convert_keys_to_snake_case elems).
Proof. reflexivity. Qed.

Lemma convert_normalized v : Normalized v (_convert_keys_to_snake_case v).
Proof.
  induction v as [| | | | |elems IH|items IH|cls attrs _] using value_ind;
    try (now apply Norm_scalar).
  - rewrite convert_list. apply Norm_list.
    induction IH; simpl; constructor; assumption.
  - rewrite convert_dict. apply Norm_dict.
    + apply dict_of_NoDup. constructor.
    + intros k v Hin.
      apply (dict_of_has_keys _ _ _ (_convert_keys_to_snake_case v)).
      apply in_map_iff. now exists (k, v).
    + intros k' v' Hin.
      apply dict_of_In in Hin as [[]|Hin].
      apply in_map_iff in Hin as ([k v] & E & Hin).
      injection E as <- <-. exists k, v. repeat split; [exact Hin|].
      rewrite Forall_forall in IH. exact (IH _ Hin).
Qed.


End ConvertKeys.

(** C3: for every value, [_convert_keys_to_snake_case] returns a structure
    in which every mapping key, at every depth, is a key of the input
    passed through [_to_snake_case] and every value is the normalised
    value; a sequence keeps its length and the order of its elements; any
    other value is returned unchanged. *)
Theorem C3_normalize_keys :
  (forall v, Normalized v (_convert_keys_to_snake_case v)) /\
  (forall elems,
      _convert_keys_to_snake_case (VList elems) =
      VList (map _convert_keys_to_snake_case elems)) /\
  (forall items,
      _convert_keys_to_snake_case (VDict items) =
      VDict (dict_of (map convert_item items) [])).
Proof.
  split; [exact convert_normalized|].
  split; [exact convert_list | exact convert_dict].
Qed.



(** ** [_from_dict] *)

Module FromDictFacts.
Import DictFacts.

Lemma from_dict_dataclass cls fields items :
  _from_dict (TData cls fields) (VDict items) =
  (kwargs <- for_items _from_dict fields items [] ;; construct cls fields kwargs).
Proof. reflexivity. Qed.

Lemma bind_Ok {A B} (r : result A) (k : A -> result B) b :
  bind r k = Ok b -> exists a, r = Ok a /\ k a = Ok b.
Proof. destruct r as [a|e]; simpl; [eauto | discriminate]. Qed.

Lemma bind_Error {A B} (r : result A) (k : A -> result B) e :
  bind r k = Error e -> r = Error e \/ exists a, r = Ok a /\ k a = Error e.
Proof. destruct r as [a|e']; simpl; [eauto | intros [= ->]; auto]. Qed.

Section Loop.
Variable rec : pytype -> value -> result value.

Lemma each_item_Forall2 t l rs :
  each_item rec t l = Ok rs <-> Forall2 (fun item r => rec t item = Ok r) l rs.
Proof.
  revert rs. induction l as [|item l IH]; intros rs; simpl.
  - split; [intros [= <-]; constructor | intros H; now inversion H].
  - split.
    + intros H. apply bind_Ok in H as (r & Hr & H).
      apply bind_Ok in H as (rs' & Hrs & H). injection H as <-.
      constructor; [exact Hr | now apply IH].
    + intros H. inversion H as [|? r ? rs' Hr Hrs]; subst.
      rewrite Hr. simpl. apply IH in Hrs. now rewrite Hrs.
Qed.

Lemma for_items_app fields a b kw :
  for_items rec fields (a ++ b) kw =
  (kw' <- for_items rec fields a kw ;; for_items rec fields b kw').
Proof.
  revert kw. induction a as [|[name v] a IH]; intros kw; simpl; [reflexivity|].
  destruct (loop_body rec fields kw name v); simpl; [apply IH | reflexivity].
Qed.

Lemma loop_body_undeclared fields kw name v :
  field_types fields name = None -> loop_body rec fields kw name v = Ok kw.
Proof. unfold loop_body. now intros ->. Qed.

Lemma loop_body_mismatch fields kw name v t :
  field_types fields name = Some t -> kind_mismatch t v = true ->
  loop_body rec fields kw name v = Ok kw.
Proof.
  unfold loop_body. intros ->.
  destruct t as [c|[|[c|a|c fs] more]|c fs], v; simpl; try discriminate; reflexivity.
Qed.

(** An item that the loop passes over could as well be absent. *)
Lemma for_items_skip fields before name v after kw :
  (forall kw', loop_body rec fields kw' name v = Ok kw') ->
  for_items rec fields (before ++ (name, v) :: after) kw =
  for_items rec fields (before ++ after) kw.
Proof.
  intros H. rewrite !for_items_app. destruct (for_items rec fields before kw); simpl;
    [now rewrite H | reflexivity].
Qed.

Lemma for_items_declared fields items kw :
  for_items rec fields items kw =
  for_items rec fields (filter (declared fields) items) kw.
Proof.
  revert kw. induction items as [|[name v] r IH]; intros kw; [reflexivity|].
  cbn [filter]. unfold declared at 1. cbn [fst].
  destruct (field_types fields name) eqn:E.
  - simpl. destruct (loop_body rec fields kw name v); simpl; [apply IH | reflexivity].
  - simpl. rewrite loop_body_undeclared by exact E. simpl. apply IH.
Qed.

(** The loop body assigns to no keyword but the item's name. *)
Lemma loop_body_assigns fields kw name v kw' :
  loop_body rec fields kw name v = Ok kw' ->
  kw' = kw \/ exists r, kw' = dict_set kw name r.
Proof.
  unfold loop_body. destruct (field_types fields name) as [t|]; [|intros [= <-]; auto].
  destruct t as [c|[|[c|a|c fs] more]|c fs]; try (intros [= <-]; eauto).
  - destruct v; try (intros [= <-]; auto).
    intros H. apply bind_Ok in H as (rs & _ & [= <-]). eauto.
  - destruct v; try (intros [= <-]; auto).
    intros H. apply bind_Ok in H as (r & _ & [= <-]). eauto.
Qed.

Lemma loop_body_other fields kw name v kw' x :
  loop_body rec fields kw name v = Ok kw' -> x <> name ->
  dict_get kw' x = dict_get kw x.
Proof.
  intros H Hx. apply loop_body_assigns in H as [->|(r & ->)]; [reflexivity|].
  now apply dict_get_set_other.
Qed.

Lemma for_items_other fields items : forall kw kw' x,
  for_items rec fields items kw = Ok kw' -> ~ In x (keys items) ->
  dict_get kw' x = dict_get kw x.
Proof.
  induction items as [|[name v] r IH]; intros kw kw' x; simpl.
  - now intros [= <-].
  - intros H Hx. apply bind_Ok in H as (kw1 & H1 & H).
    rewrite (IH _ _ _ H) by tauto.
    apply (loop_body_other _ _ _ _ _ _ H1). intros ->. tauto.
Qed.

(** What the loop leaves in a keyword whose item occurs once. *)
Lemma for_items_at fields items name v kw kw' :
  NoDup (keys items) -> In (name, v) items ->
  for_items rec fields items kw = Ok kw' ->
  exists kw1 kw2,
    loop_body rec fields kw1 name v = Ok kw2 /\
    dict_get kw1 name = dict_get kw name /\
    dict_get kw' name = dict_get kw2 name.
Proof.
  intros Hnd Hin H.
  apply in_split in Hin as (before & after & ->).
  unfold keys in Hnd. rewrite map_app in Hnd. simpl in Hnd.
  apply NoDup_remove_2 in Hnd.
  rewrite for_items_app in H. apply bind_Ok in H as (kw1 & H1 & H).
  simpl in H. apply bind_Ok in H as (kw2 & H2 & H).
  exists kw1, kw2. split; [exact H2|]. split.
  - apply (for_items_other _ _ _ _ _ H1). intros Hx. apply Hnd, in_or_app. now left.
  - apply (for_items_other _ _ _ _ _ H). intros Hx. apply Hnd, in_or_app. now right.
Qed.

End Loop.

(** *** The constructor *)

Lemma construct_cases cls fields kw :
  (missing_fields fields kw = [] /\
   construct cls fields kw = Ok (VObj cls (map (attr_of kw) fields))) \/
  (missing_fields fields kw <> [] /\
   construct cls fields kw =
   Error (TypeError (MissingArguments cls (missing_fields fields kw)))).
Proof.
  unfold construct. destruct (missing_fields fields kw); [left | right]; split;
    (reflexivity || discriminate).
Qed.

Lemma missing_fields_In fields kw name t :
  In (Field name t None) fields -> dict_get kw name = None ->
  In name (missing_fields fields kw).
Proof.
  intros Hin Hget. unfold missing_fields.
  apply in_map_iff. exists (Field name t None). split; [reflexivity|].
  apply filter_In. split; [exact Hin|]. simpl. now rewrite Hget.
Qed.

Lemma attr_assigned fields kw name t v :
  field_types fields name = Some t -> dict_get kw name = Some v ->
  dict_get (map (attr_of kw) fields) name = Some v.
Proof.
  intros Ht Hv. induction fields as [|[n t' d] r IH]; simpl in *; [discriminate|].
  destruct (String.eqb n name) eqn:E.
  - apply String.eqb_eq in E. subst n. now rewrite Hv.
  - now apply IH.
Qed.

Lemma attr_default fields kw name t d :
  NoDup (map field_name fields) -> In (Field name t (Some d)) fields ->
  dict_get kw name = None ->
  dict_get (map (attr_of kw) fields) name = Some d.
Proof.
  intros Hnd Hin Hv. induction fields as [|[n t' d'] r IH]; simpl in *; [contradiction|].
  inversion Hnd as [|? ? Hn Hr]; subst.
  destruct Hin as [E|Hin].
  - injection E as -> -> ->. now rewrite String.eqb_refl, Hv.
  - destruct (String.eqb n name) eqn:E; [|now apply IH].
    apply String.eqb_eq in E. subst n. exfalso. apply Hn.
    apply in_map_iff. now exists (Field name t (Some d)).
Qed.

Lemma field_types_In fields name t d :
  NoDup (map field_name fields) -> In (Field name t d) fields ->
  field_types fields name = Some t.
Proof.
  intros Hnd Hin. induction fields as [|[n t' d'] r IH]; simpl in *; [contradiction|].
  inversion Hnd as [|? ? Hn Hr]; subst.
  destruct Hin as [E|Hin].
  - injection E as -> -> ->. now rewrite String.eqb_refl.
  - destruct (String.eqb n name) eqn:E; [|now apply IH].
    apply String.eqb_eq in E. subst n. exfalso. apply Hn.
    apply in_map_iff. now exists (Field name t d).
Qed.

(** The record that a successful call returns. *)
Lemma from_dict_Ok cls fields items r :
  _from_dict (TData cls fields) (VDict items) = Ok r ->
  exists kw, for_items _from_dict fields items [] = Ok kw /\
             missing_fields fields kw = [] /\
             r = VObj cls (map (attr_of kw) fields).
Proof.
  rewrite from_dict_dataclass. intros H. apply bind_Ok in H as (kw & Hkw & H).
  exists kw. split; [exact Hkw|].
  destruct (construct_cases cls fields kw) as [[Hm E]|[Hm E]]; rewrite E in H.
  - now injection H as <-.
  - discriminate.
Qed.

End FromDictFacts.

(** *** Where an error of the loop comes from *)

Module FromDictErrors.
Import FromDictFacts.

Section Loop.
Variable rec : pytype -> value -> result value.

Lemma each_item_Error t l e :
  each_item rec t l = Error e -> exists item, In item l /\ rec t item = Error e.
Proof.
  induction l as [|item l IH]; simpl; [discriminate|].
  intros H. apply bind_Error in H as [H|(r & Hr & H)].
  - exists item. auto.
  - apply bind_Error in H as [H|(rs & _ & H)]; [|discriminate].
    destruct (IH H) as (x & Hx & Ex). exists x. auto.
Qed.

Lemma loop_body_Error fields kw name v e :
  loop_body rec fields kw name v = Error e ->
  exists t, is_dataclass t = true /\
            (rec t v = Error e \/
             exists l item, v = VList l /\ In item l /\ rec t item = Error e).
Proof.
  unfold loop_body. destruct (field_types fields name) as [t|]; [|discriminate].
  destruct t as [c|[|[c|a|c fs] more]|c fs]; try discriminate.
  - destruct v; try discriminate.
    intros H. apply bind_Error in H as [H|(rs & _ & H)]; [|discriminate].
    apply each_item_Error in H as (item & Hin & H).
    exists (TData c fs). split; [reflexivity|]. right. eauto.
  - destruct v; try discriminate.
    intros H. apply bind_Error in H as [H|(r & _ & H)]; [|discriminate].
    exists (TData c fs). split; [reflexivity|]. now left.
Qed.

Lemma for_items_Error fields items : forall kw e,
  for_items rec fields items kw = Error e ->
  exists name v kw1, In (name, v) items /\
                     loop_body rec fields kw1 name v = Error e.
Proof.
  induction items as [|[name v] r IH]; intros kw e; simpl; [discriminate|].
  intros H. apply bind_Error in H as [H|(kw1 & _ & H)].
  - exists name, v, kw. auto.
  - destruct (IH _ _ H) as (n & x & kw2 & Hin & E). exists n, x, kw2. auto.
Qed.
End Loop.

Lemma accepted_all v :
  accepted v /\ match v with VList l => Forall accepted l | _ => True end.
Proof.
  induction v as [| | | | |elems IH|items IH|cls attrs _] using value_ind;
    try (split; [|exact I]; intros [c|a|c fs] m Hm; try discriminate Hm;
         simpl; discriminate).
  - split.
    + intros [c|a|c fs] m Hm; try discriminate Hm. simpl. discriminate.
    + eapply Forall_impl; [|exact IH]. now intros x [Hx _].
  - split; [|exact I].
    intros [c|a|c fs] m Hm; try discriminate Hm.
    rewrite from_dict_dataclass. intros H.
    apply bind_Error in H as [H|(kw & _ & H)].
    + apply for_items_Error in H as (name & v & kw1 & Hin & H).
      apply loop_body_Error in H as (t & Ht & [H|(l & item & -> & Hitem & H)]);
        rewrite Forall_forall in IH; specialize (IH _ Hin); simpl in IH;
        destruct IH as [Hv Hl].
      * exact (Hv t m Ht H).
      * rewrite Forall_forall in Hl. exact (Hl _ Hitem t m Ht H).
    + destruct (construct_cases c fs kw) as [[_ E]|[_ E]]; rewrite E in H;
        discriminate.
Qed.

End FromDictErrors.

(** C6: given a model that is not a dataclass, [_from_dict] raises its
    "Expected a dataclass type" error whatever the data is, a mapping or
    not; given a dataclass it never raises that error. *)
Theorem C6_schema_error :
  (forall model data,
      is_dataclass model = false ->
      _from_dict model data = Error (TypeError (NotADataclass model))) /\
  (forall model data m,
      is_dataclass model = true ->
      _from_dict model data <> Error (TypeError (NotADataclass m))).
Proof.
  split.
  - intros [c|a|c fs] data H; try discriminate H; now destruct data.
  - intros model data m H. now apply (proj1 (FromDictErrors.accepted_all data)).
Qed.

Lemma C6_schema_error_witness :
  _from_dict (TList [Beat]) (VInt 3) = Error (TypeError (NotADataclass (TList [Beat]))) /\
  _from_dict Song (VDict [("artist"%string, VDict [])])
    <> Error (TypeError (NotADataclass Artist)).
Proof.
  split.
  - apply (proj1 C6_schema_error). reflexivity.
  - apply (proj2 C6_schema_error). reflexivity.
Defined.

(** *** Items that leave no trace, items that are materialised *)

Section Items.
Import DictFacts FromDictFacts.

Lemma undeclared_item_ignored cls fields before k v after :
  field_types fields k = None ->
  _from_dict (TData cls fields) (VDict (before ++ (k, v) :: after)) =
  _from_dict (TData cls fields) (VDict (before ++ after)).
Proof.
  intros H. rewrite !from_dict_dataclass. f_equal.
  apply for_items_skip. intros kw. now apply loop_body_undeclared.
Qed.

Lemma declared_items_only cls fields items :
  _from_dict (TData cls fields) (VDict items) =
  _from_dict (TData cls fields) (VDict (filter (declared fields) items)).
Proof.
  rewrite !from_dict_dataclass. f_equal. apply for_items_declared.
Qed.

Lemma mismatched_item_ignored cls fields before name v after t :
  field_types fields name = Some t -> kind_mismatch t v = true ->
  _from_dict (TData cls fields) (VDict (before ++ (name, v) :: after)) =
  _from_dict (TData cls fields) (VDict (before ++ after)).
Proof.
  intros Ht Hm. rewrite !from_dict_dataclass. f_equal.
  apply for_items_skip. intros kw. now apply (loop_body_mismatch _ _ _ _ _ t).
Qed.

Lemma nested_record_materialized cls fields items name ncls nfields sub res :
  NoDup (keys items) -> In (name, VDict sub) items ->
  field_types fields name = Some (TData ncls nfields) ->
  _from_dict (TData cls fields) (VDict items) = Ok res ->
  exists r attrs,
    res = VObj cls attrs /\
    _from_dict (TData ncls nfields) (VDict sub) = Ok r /\
    dict_get attrs name = Some r.
Proof.
  intros Hnd Hin Ht H.
  apply from_dict_Ok in H as (kw & Hkw & _ & ->).
  destruct (for_items_at _ _ _ _ _ _ _ Hnd Hin Hkw) as (kw1 & kw2 & Hb & _ & Hget).
  unfold loop_body in Hb. rewrite Ht in Hb.
  apply bind_Ok in Hb as (r & Hr & [= <-]).
  exists r, (map (attr_of kw) fields). split; [reflexivity|]. split; [exact Hr|].
  apply (attr_assigned _ _ _ _ _ Ht). now rewrite Hget, dict_get_set.
Qed.

Lemma list_field_materialized cls fields items name ecls efields more l res :
  NoDup (keys items) -> In (name, VList l) items ->
  field_types fields name = Some (TList (TData ecls efields :: more)) ->
  _from_dict (TData cls fields) (VDict items) = Ok res ->
  exists rs attrs,
    res = VObj cls attrs /\
    dict_get attrs name = Some (VList rs) /\
    Forall2 (fun item r => _from_dict (TData ecls efields) item = Ok r) l rs.
Proof.
  intros Hnd Hin Ht H.
  apply from_dict_Ok in H as (kw & Hkw & _ & ->).
  destruct (for_items_at _ _ _ _ _ _ _ Hnd Hin Hkw) as (kw1 & kw2 & Hb & _ & Hget).
  unfold loop_body in Hb. rewrite Ht in Hb.
  apply bind_Ok in Hb as (rs & Hrs & [= <-]).
  exists rs, (map (attr_of kw) fields). split; [reflexivity|]. split.
  - apply (attr_assigned _ _ _ _ _ Ht). now rewrite Hget, dict_get_set.
  - now apply each_item_Forall2.
Qed.

Lemma Forall2_nth {A B} (R : A -> B -> Prop) l rs :
  Forall2 R l rs ->
  forall i a, nth_error l i = Some a -> exists b, nth_error rs i = Some b /\ R a b.
Proof.
  induction 1 as [|a0 b0 l rs Hab _ IH]; intros i a.
  - destruct i; discriminate.
  - destruct i as [|i]; simpl; [intros [= <-]; eauto | apply IH].
Qed.

Lemma absent_keyword fields items kw name :
  for_items _from_dict fields items [] = Ok kw -> ~ In name (keys items) ->
  dict_get kw name = None.
Proof.
  intros H Hn. now rewrite (for_items_other _ _ _ _ _ _ H Hn).
Qed.

Lemma required_field_absent cls fields items name t :
  In (Field name t None) fields -> ~ In name (keys items) ->
  (forall r, _from_dict (TData cls fields) (VDict items) <> Ok r) /\
  (forall kw, for_items _from_dict fields items [] = Ok kw ->
              _from_dict (TData cls fields) (VDict items) =
              Error (TypeError (MissingArguments cls (missing_fields fields kw))) /\
              In name (missing_fields fields kw)).
Proof.
  intros Hf Hn.
  assert (Hmiss : forall kw, for_items _from_dict fields items [] = Ok kw ->
                             In name (missing_fields fields kw)).
  { intros kw Hkw. apply (missing_fields_In _ _ _ t Hf).
    exact (absent_keyword _ _ _ _ Hkw Hn). }
  split.
  - intros r H. apply from_dict_Ok in H as (kw & Hkw & Hm & _).
    specialize (Hmiss _ Hkw). rewrite Hm in Hmiss. contradiction.
  - intros kw Hkw. split; [|now apply Hmiss].
    rewrite from_dict_dataclass, Hkw. simpl.
    destruct (construct_cases cls fields kw) as [[Hm _]|[_ E]]; [|exact E].
    specialize (Hmiss _ Hkw). rewrite Hm in Hmiss. contradiction.
Qed.

Lemma default_retained cls fields before name v after t d res :
  NoDup (map field_name fields) -> In (Field name t (Some d)) fields ->
  kind_mismatch t v = true -> ~ In name (keys (before ++ after)) ->
  _from_dict (TData cls fields) (VDict (before ++ (name, v) :: after)) = Ok res ->
  exists attrs, res = VObj cls attrs /\ dict_get attrs name = Some d.
Proof.
  intros Hnd Hf Hm Hn H.
  rewrite (mismatched_item_ignored _ _ _ _ _ _ t) in H;
    [|now apply (field_types_In _ _ _ (Some d)) | exact Hm].
  apply from_dict_Ok in H as (kw & Hkw & _ & ->).
  exists (map (attr_of kw) fields). split; [reflexivity|].
  apply (attr_default _ _ _ t); [exact Hnd | exact Hf |].
  exact (absent_keyword _ _ _ _ Hkw Hn).
Qed.

End Items.

Ltac distinct_strings :=
  repeat (constructor;
          [simpl; intros H; repeat (destruct H as [H|H]; [discriminate H|]); exact H|]);
  constructor.

(** C1: [_from_dict] passes over every key of the mapping that names no
    field of the dataclass, so that the result is that of the mapping
    without it; where a field is a dataclass and its value a mapping, the
    attribute is the record that [_from_dict] makes of that mapping.  A
    Song made from its eleven fields, the artist {"id": 2, "name": "A"}
    among them, and one unknown key has the attribute artist
    Artist(id=2, name="A") and is the Song made without the unknown key. *)
Theorem C1_unknown_keys_ignored_nested_materialized :
  (forall cls fields items,
      _from_dict (TData cls fields) (VDict items) =
      _from_dict (TData cls fields) (VDict (filter (declared fields) items))) /\
  (forall cls fields before k v after,
      field_types fields k = None ->
      _from_dict (TData cls fields) (VDict (before ++ (k, v) :: after)) =
      _from_dict (TData cls fields) (VDict (before ++ after))) /\
  (forall cls fields items name ncls nfields sub res,
      NoDup (keys items) -> In (name, VDict sub) items ->
      field_types fields name = Some (TData ncls nfields) ->
      _from_dict (TData cls fields) (VDict items) = Ok res ->
      exists r attrs,
        res = VObj cls attrs /\
        _from_dict (TData ncls nfields) (VDict sub) = Ok r /\
        dict_get attrs name = Some r) /\
  (_from_dict Song (VDict (song_items ++ [unused_future_field])) = Ok song_obj /\
   _from_dict Song (VDict song_items) = Ok song_obj /\
   _from_dict Artist artist_data = Ok artist_obj /\
   exists attrs, song_obj = VObj "Song"%string attrs /\
                 dict_get attrs "artist"%string = Some artist_obj /\
                 dict_get attrs "unused_future_field"%string = None).
Proof.
  split; [exact declared_items_only|].
  split; [exact undeclared_item_ignored|].
  split; [exact nested_record_materialized|].
  repeat split; try reflexivity.
  eexists. split; [reflexivity|]. split; reflexivity.
Qed.

Lemma C1_unknown_keys_witness :
  _from_dict Song (VDict (song_items ++ unused_future_field :: [])) =
  _from_dict Song (VDict (song_items ++ [])) /\
  exists r attrs,
    song_obj = VObj "Song"%string attrs /\
    _from_dict (TData "Artist"%string (fields_of Artist))
               (VDict [("id", VInt 2); ("name", VStr "A")]%string) = Ok r /\
    dict_get attrs "artist"%string = Some r.
Proof.
  split.
  - apply (proj1 (proj2 C1_unknown_keys_ignored_nested_materialized)). reflexivity.
  - apply (proj1 (proj2 (proj2 C1_unknown_keys_ignored_nested_materialized))
             "Song"%string (fields_of Song) song_items).
    + distinct_strings.
    + simpl. do 4 right. left. reflexivity.
    + reflexivity.
    + reflexivity.
Defined.


(** C4: where a field is a list of dataclasses and its value a sequence,
    the attribute is a sequence of the same length whose i-th element is
    the record made of the i-th element of the input, whatever the order
    of the input; the loop makes it as soon as every element materialises.
    A BeatInfo made from three beats given out of index order has its
    three beats in the order given. *)
Theorem C4_list_field_keeps_order :
  (forall cls fields items name ecls efields more l res,
      NoDup (keys items) -> In (name, VList l) items ->
      field_types fields name = Some (TList (TData ecls efields :: more)) ->
      _from_dict (TData cls fields) (VDict items) = Ok res ->
      exists rs attrs,
        res = VObj cls attrs /\
        dict_get attrs name = Some (VList rs) /\
        List.length rs = List.length l /\
        forall i item,
          nth_error l i = Some item ->
          exists r, nth_error rs i = Some r /\
                    _from_dict (TData ecls efields) item = Ok r) /\
  (forall fields kw name ecls efields more l rs,
      field_types fields name = Some (TList (TData ecls efields :: more)) ->
      Forall2 (fun item r => _from_dict (TData ecls efields) item = Ok r) l rs ->
      loop_body _from_dict fields kw name (VList l) =
      Ok (dict_set kw name (VList rs))) /\
  _from_dict BeatInfo
    (VDict [("beats"%string,
             VList [beat_data 2 1000 3 3 120; beat_data 0 0 1 1 120;
                    beat_data 1 500 2 2 120])]) =
  Ok (VObj "BeatInfo"
        [("beats"%string,
          VList [beat_obj 2 1000 3 3 120; beat_obj 0 0 1 1 120;
                 beat_obj 1 500 2 2 120])]).
Proof.
  split; [|split; [|reflexivity]].
  - intros cls fields items name ecls efields more l res Hnd Hin Ht H.
    destruct (list_field_materialized _ _ _ _ _ _ _ _ _ Hnd Hin Ht H)
      as (rs & attrs & -> & Hget & Hall).
    exists rs, attrs. split; [reflexivity|]. split; [exact Hget|]. split.
    + symmetry. exact (Forall2_length Hall).
    + exact (Forall2_nth _ _ _ Hall).
  - intros fields kw name ecls efields more l rs Ht Hall.
    unfold loop_body. rewrite Ht.
    apply FromDictFacts.each_item_Forall2 in Hall. now rewrite Hall.
Qed.

Lemma C4_list_field_witness :
  (exists rs attrs,
      VObj "BeatInfo" [("beats"%string, VList [beat_obj 1 500 2 2 120; beat_obj 0 0 1 1 120])]
      = VObj "BeatInfo" attrs /\
      dict_get attrs "beats" = Some (VList rs) /\
      List.length rs =
      List.length [beat_data 1 500 2 2 120; beat_data 0 0 1 1 120] /\
      forall i item,
        nth_error [beat_data 1 500 2 2 120; beat_data 0 0 1 1 120] i = Some item ->
        exists r, nth_error rs i = Some r /\
                  _from_dict (TData "Beat" (fields_of Beat)) item = Ok r) /\
  loop_body _from_dict (fields_of BeatInfo) [] "beats" (VList [beat_data 7 0 1 1 90]) =
  Ok (dict_set [] "beats" (VList [beat_obj 7 0 1 1 90])).
Proof.
  split.
  - apply (proj1 C4_list_field_keeps_order "BeatInfo"%string (fields_of BeatInfo)
             [("beats"%string, VList [beat_data 1 500 2 2 120; beat_data 0 0 1 1 120])]
             "beats"%string "Beat"%string (fields_of Beat) []
             [beat_data 1 500 2 2 120; beat_data 0 0 1 1 120]).
    + distinct_strings.
    + simpl. left. reflexivity.
    + reflexivity.
    + reflexivity.
  - apply (proj1 (proj2 C4_list_field_keeps_order) (fields_of BeatInfo) []
             "beats"%string "Beat"%string (fields_of Beat) []).
    + reflexivity.
    + repeat constructor.
Defined.

(** C5, as stated, fails where a nested record of the input fails first:
    title, a field of Song with no default, is absent from the mapping, and
    the error raised names the fields id and name of Artist. *)
Lemma C5_nested_failure_counterexample :
  In (Field "title" t_str None) (fields_of Song) /\
  ~ In "title"%string (keys [("artist"%string, VDict [])]) /\
  _from_dict Song (VDict [("artist"%string, VDict [])]) =
  Error (TypeError (MissingArguments "Artist" ["id"; "name"]%string)) /\
  ~ (exists names,
        _from_dict Song (VDict [("artist"%string, VDict [])]) =
        Error (TypeError (MissingArguments "Song" names)) /\
        In "title"%string names).
Proof.
  split; [simpl; right; left; reflexivity|].
  split; [simpl; intros [H|[]]; discriminate H|].
  split; [reflexivity|].
  intros (names & H & _). vm_compute in H. discriminate H.
Qed.

(** C5, amended: where a field of the dataclass with no default is absent
    from the mapping, [_from_dict] returns no record.  When the loop over
    the items of the mapping raises nothing, the error is the
    constructor's [TypeError], naming the dataclass and the fields left
    without a value, the absent field among them; it is no
    [SongleApiException].  A record requiring title, given a mapping
    without it, fails naming title and the record. *)
Theorem C5_missing_required_field :
  (forall cls fields items name t,
      In (Field name t None) fields -> ~ In name (keys items) ->
      (forall r, _from_dict (TData cls fields) (VDict items) <> Ok r) /\
      (forall kw,
          for_items _from_dict fields items [] = Ok kw ->
          _from_dict (TData cls fields) (VDict items) =
          Error (TypeError (MissingArguments cls (missing_fields fields kw))) /\
          In name (missing_fields fields kw))) /\
  (forall cls names status_code message,
      TypeError (MissingArguments cls names) <> SongleApiException status_code message) /\
  _from_dict Titled (VDict [("id"%string, VInt 1)]) =
  Error (TypeError (MissingArguments "Titled" ["title"%string])).
Proof.
  split; [exact required_field_absent|].
  split; [discriminate | reflexivity].
Qed.

Lemma C5_missing_required_field_witness :
  (forall r, _from_dict (TData "Titled" (fields_of Titled))
                        (VDict [("id"%string, VInt 1)]) <> Ok r) /\
  (forall kw,
      for_items _from_dict (fields_of Titled) [("id"%string, VInt 1)] [] = Ok kw ->
      _from_dict (TData "Titled" (fields_of Titled)) (VDict [("id"%string, VInt 1)]) =
      Error (TypeError (MissingArguments "Titled" (missing_fields (fields_of Titled) kw))) /\
      In "title"%string (missing_fields (fields_of Titled) kw)).
Proof.
  apply (proj1 C5_missing_required_field "Titled"%string (fields_of Titled)
           [("id"%string, VInt 1)] "title"%string t_str).
  - simpl. right. left. reflexivity.
  - simpl. intros [H|[]]. discriminate H.
Defined.

(** C7: where the value given for a nested-record field is no mapping, or
    the value given for a list-of-records field is no sequence,
    [_from_dict] does what it does on the mapping without that item: the
    field is left unset and nothing is raised on account of the value; a
    field with a default then has its default. *)
Theorem C7_mismatched_value_leaves_field_unset :
  (forall cls fields before name v after t,
      field_types fields name = Some t -> kind_mismatch t v = true ->
      _from_dict (TData cls fields) (VDict (before ++ (name, v) :: after)) =
      _from_dict (TData cls fields) (VDict (before ++ after))) /\
  (forall cls fields before name v after t d res,
      NoDup (map field_name fields) -> In (Field name t (Some d)) fields ->
      kind_mismatch t v = true -> ~ In name (keys (before ++ after)) ->
      _from_dict (TData cls fields) (VDict (before ++ (name, v) :: after)) = Ok res ->
      exists attrs, res = VObj cls attrs /\ dict_get attrs name = Some d) /\
  _from_dict Album
    (VDict [("id", VInt 1); ("artist", VStr "A"); ("beats", VInt 4)]%string) =
  Ok (VObj "Album" [("id", VInt 1); ("artist", VNone); ("beats", VList [])]%string).
Proof.
  split; [exact mismatched_item_ignored|].
  split; [exact default_retained | reflexivity].
Qed.

Lemma C7_mismatched_value_witness :
  _from_dict (TData "Album" (fields_of Album))
    (VDict ([("id"%string, VInt 1)] ++ ("beats"%string, VDict []) :: [])) =
  _from_dict (TData "Album" (fields_of Album))
    (VDict ([("id"%string, VInt 1)] ++ [])) /\
  exists attrs,
    VObj "Album" [("id", VInt 1); ("artist", VNone); ("beats", VList [])]%string =
    VObj "Album" attrs /\
    dict_get attrs "artist" = Some VNone.
Proof.
  split.
  - apply (proj1 C7_mismatched_value_leaves_field_unset "Album"%string (fields_of Album)
             [("id"%string, VInt 1)] "beats"%string (VDict []) [] (TList [Beat]));
      reflexivity.
  - apply (proj1 (proj2 C7_mismatched_value_leaves_field_unset)
             "Album"%string (fields_of Album) [("id"%string, VInt 1)]
             "artist"%string (VList []) [] Artist VNone).
    + distinct_strings.
    + simpl. right. left. reflexivity.
    + reflexivity.
    + simpl. intros [H|[]]. discriminate H.
    + reflexivity.
Defined.

(** ** The client *)

Section Client.
Import Songle.

Lemma get_request_failed sess descr path params :
  (forall url q, sess url q = Error (RequestException descr)) ->
  _get sess path params =
  Error (SongleApiException 500 ("Request failed: " ++ descr)%string).
Proof. intros H. unfold _get. now rewrite H. Qed.

Lemma get_error_response sess status text json path params :
  (forall url q, sess url q = Ok (Response status text json)) ->
  (400 <= status < 600)%Z ->
  _get sess path params =
  Error (SongleApiException status ("Error response from API: " ++ text)%string).
Proof.
  intros H Hs. unfold _get. rewrite H. simpl. unfold raise_for_status. simpl.
  replace ((400 <=? status)%Z && (status <? 600)%Z) with true; [reflexivity|].
  symmetry. apply andb_true_iff. split; [apply Z.leb_le | apply Z.ltb_lt]; lia.
Qed.

(** An error of [_get] is the error of the public method. *)
Lemma call_get_error sess op e :
  (forall path params, _get sess path params = Error e) ->
  call sess op = Error e.
Proof.
  intros H.
  destruct op; simpl;
    unfold get_song_info, get_beats, get_beat_revisions, get_chords,
      get_chord_revisions, get_melody, get_melody_revisions, get_chorus,
      get_chorus_revisions, search_songs, _fetch_and_parse, _fetch_and_parse_list;
    now rewrite H.
Qed.

(** A response with status 400 to 599 surfaces with its status and text. *)
Lemma error_response_surfaces sess op status text json :
  (forall url q, sess url q = Ok (Response status text json)) ->
  (400 <= status < 600)%Z ->
  call sess op =
  Error (SongleApiException status ("Error response from API: " ++ text)%string).
Proof.
  intros H Hs. apply call_get_error. intros path params.
  now apply (get_error_response _ _ _ json).
Qed.

End Client.

(** C8, as stated, fails: the status carried after a refused connection is
    500, the status carried after a response "500 Internal Server Error". *)
Lemma C8_status_500_counterexample :
  status_of (Songle.call (refusing "Connection refused") (Songle.GetSongInfo "u")) =
  Some 500%Z /\
  status_of (Songle.call (answering 500 "Internal Server Error" (Ok VNone))
                         (Songle.GetSongInfo "u")) = Some 500%Z /\
  ~ (forall status text json,
        status_of (Songle.call (refusing "Connection refused") (Songle.GetSongInfo "u")) <>
        status_of (Songle.call (answering status text json) (Songle.GetSongInfo "u"))).
Proof.
  split; [reflexivity|]. split; [reflexivity|].
  intros H. apply (H 500%Z "Internal Server Error"%string (Ok VNone)). reflexivity.
Qed.

(** C8, amended: when the transport fails before any response, every
    public method raises a [SongleApiException] whose status is 500 and
    whose message is "Request failed: " followed by the description of
    the failure. *)
Theorem C8_transport_failure_status_500
        (sess : session) (op : Songle.operation) (descr : string) :
  (forall url q, sess url q = Error (RequestException descr)) ->
  Songle.call sess op =
  Error (SongleApiException 500 ("Request failed: " ++ descr)%string).
Proof.
  intros H. apply call_get_error. intros path params.
  now apply get_request_failed.
Qed.

Lemma C8_transport_failure_witness :
  Songle.call (refusing "Connection refused") (Songle.GetBeats "u" (Some 3%Z)) =
  Error (SongleApiException 500 "Request failed: Connection refused").
Proof.
  apply (C8_transport_failure_status_500 (refusing "Connection refused")
           (Songle.GetBeats "u" (Some 3%Z)) "Connection refused").
  intros url q. reflexivity.
Defined.

(** C9 at a response that is not 2xx and not an error for
    [raise_for_status]: on "300 Multiple Choices" with the body [[]],
    [get_beat_revisions] returns the empty list and raises nothing.  On
    "404" with the body "not found" every public method raises the
    exception with status 404 and the body in its message. *)
Theorem C9_status_300_returns_normally :
  Songle.call (answering 300 "[]" (Ok (VList []))) (Songle.GetBeatRevisions "u") =
  Ok (VList []) /\
  forall op json,
    Songle.call (answering 404 "not found" json) op =
    Error (SongleApiException 404 "Error response from API: not found").
Proof.
  split; [reflexivity|].
  intros op json. apply (error_response_surfaces _ _ _ _ json); [reflexivity | lia].
Qed.

(** * Further properties of the code *)

(** ** [_to_snake_case] *)

Module SnakeMore.
Import SnakeFacts.

Lemma lower_keeps_underscore c : is_underscore (Chr.lower c) = is_underscore c.
Proof. each_char c. Qed.

Lemma separate_inserts_underscores dot s : forall prev,
  filter (fun c => negb (is_underscore c)) (separate dot prev s) =
  filter (fun c => negb (is_underscore c)) s.
Proof.
  induction s as [|c t IH]; intros prev; [reflexivity|].
  cbn [separate].
  assert (E : filter (fun c => negb (is_underscore c)) (c :: separate dot (Some c) t) =
              filter (fun c => negb (is_underscore c)) (c :: t)).
  { simpl. rewrite IH. reflexivity. }
  destruct prev as [p|]; [|exact E].
  destruct (boundary dot p c t); [|exact E].
  cbn [filter]. replace (is_underscore Chr.underscore) with true by reflexivity.
  exact E.
Qed.

Lemma filter_lower s :
  filter (fun c => negb (is_underscore c)) (str_lower s) =
  str_lower (filter (fun c => negb (is_underscore c)) s).
Proof.
  induction s as [|c t IH]; [reflexivity|].
  simpl. rewrite lower_keeps_underscore.
  destruct (is_underscore c); simpl; now rewrite IH.
Qed.

Lemma separate_length dot s : forall prev,
  (List.length s <= List.length (separate dot prev s) <= 2 * List.length s)%nat.
Proof.
  induction s as [|c t IH]; intros prev; [simpl; lia|].
  cbn [separate]. specialize (IH (Some c)).
  destruct prev as [p|]; [destruct (boundary dot p c t)|]; simpl; lia.
Qed.

Lemma length_of_list l : String.length (string_of_list_ascii l) = List.length l.
Proof. induction l as [|c l IH]; simpl; [reflexivity | now rewrite IH]. Qed.

Lemma length_to_list s : List.length (list_ascii_of_string s) = String.length s.
Proof. induction s as [|c s IH]; simpl; [reflexivity | now rewrite IH]. Qed.

End SnakeMore.

(** X1: a name of code points 0 to 255 without uppercase letters, those
    of A-Z and those of the upper half alike, is returned as it is. *)
Theorem X1_snake_case_fixes_lowercase (name : string) :
  no_upper name -> _to_snake_case name = name.
Proof.
  intros H. unfold _to_snake_case.
  rewrite SnakeFacts.snake_chars_lowered by exact H.
  apply string_of_list_ascii_of_string.
Qed.

Lemma X1_snake_case_fixes_lowercase_witness :
  _to_snake_case "rms_amplitude2" = "rms_amplitude2"%string.
Proof.
  apply (X1_snake_case_fixes_lowercase "rms_amplitude2").
  unfold no_upper. simpl. repeat constructor.
Defined.

(** X2: on a name of code points 0 to 255 the conversion only inserts
    underscores and lowers letters: with the underscores taken out, the
    result is the lowered name with its underscores taken out; the result
    is at least as long as the name and at most twice as long. *)
Theorem X2_snake_case_only_inserts_underscores :
  forall name,
    without_underscores (_to_snake_case name) =
    lower_string (without_underscores name) /\
    (String.length name <= String.length (_to_snake_case name)
     <= 2 * String.length name)%nat.
Proof.
  intros name. split.
  - unfold without_underscores, lower_string, _to_snake_case.
    rewrite !list_ascii_of_string_of_list_ascii. f_equal.
    rewrite SnakeFacts.snake_chars_separate, SnakeMore.filter_lower.
    now rewrite SnakeMore.separate_inserts_underscores.
  - unfold _to_snake_case.
    rewrite SnakeMore.length_of_list, SnakeFacts.snake_chars_separate.
    unfold str_lower. rewrite length_map, <- SnakeMore.length_to_list.
    apply SnakeMore.separate_length.
Qed.

(** ** [_convert_keys_to_snake_case] *)

Module ConvertMore.
Import DictFacts.

Lemma dict_get_app a b k :
  dict_get (a ++ b) k =
  match dict_get a k with
  | Some v => Some v
  | None => dict_get b k
  end.
Proof.
  induction a as [|[k' v'] r IH]; simpl; [reflexivity|].
  destruct (String.eqb k' k); [reflexivity | exact IH].
Qed.

Lemma dict_get_dict_set d k v x :
  dict_get (dict_set d k v) x = if String.eqb k x then Some v else dict_get d x.
Proof.
  destruct (String.eqb k x) eqn:E.
  - apply String.eqb_eq in E. subst x. apply dict_get_set.
  - apply String.eqb_neq in E. apply dict_get_set_other. congruence.
Qed.

(** In a comprehension the last item with a given key gives its value. *)
Lemma dict_get_dict_of pairs : forall acc k,
  dict_get (dict_of pairs acc) k =
  match dict_get (rev pairs) k with
  | Some v => Some v
  | None => dict_get acc k
  end.
Proof.
  induction pairs as [|[k0 v0] r IH]; intros acc k; [reflexivity|].
  simpl. rewrite IH, dict_get_app, dict_get_dict_set. simpl.
  destruct (dict_get (rev r) k); [reflexivity|].
  destruct (String.eqb k0 k); reflexivity.
Qed.

Lemma keys_convert items :
  keys (map convert_item items) = map _to_snake_case (keys items).
Proof. unfold keys. rewrite !map_map. reflexivity. Qed.

Lemma snake_keyed_items items :
  (fix all (l : list (string * value)) : Prop :=
     match l with
     | [] => True
     | (k, x) :: r => no_upper k /\ snake_keyed x /\ all r
     end) items ->
  Forall (fun kv => no_upper (fst kv) /\ snake_keyed (snd kv)) items.
Proof.
  induction items as [|[k x] r IH]; [constructor|].
  intros (Hk & Hx & Hr). constructor; [split; assumption | now apply IH].
Qed.

Lemma snake_keyed_elems elems :
  (fix all (l : list value) : Prop :=
     match l with
     | [] => True
     | x :: r => snake_keyed x /\ all r
     end) elems ->
  Forall snake_keyed elems.
Proof.
  induction elems as [|x r IH]; [constructor|].
  intros (Hx & Hr). constructor; [assumption | now apply IH].
Qed.

End ConvertMore.

(** X3: where no two keys of a mapping are converted to the same name, the
    mapping is rebuilt item by item, in the order of the input. *)
Theorem X3_convert_keys_keeps_order (items : list (string * value)) :
  NoDup (map _to_snake_case (keys items)) ->
  _convert_keys_to_snake_case (VDict items) = VDict (map convert_item items).
Proof.
  intros H. rewrite convert_dict. f_equal.
  apply (DictFacts.dict_of_distinct _ []). simpl.
  now rewrite ConvertMore.keys_convert.
Qed.

Lemma X3_convert_keys_keeps_order_witness :
  _convert_keys_to_snake_case
    (VDict [("updatedAt", VStr "b"); ("createdAt", VStr "a"); ("id", VInt 1)]%string) =
  VDict (map convert_item
             [("updatedAt", VStr "b"); ("createdAt", VStr "a"); ("id", VInt 1)]%string).
Proof.
  apply (X3_convert_keys_keeps_order
           [("updatedAt", VStr "b"); ("createdAt", VStr "a"); ("id", VInt 1)]%string).
  distinct_strings.
Defined.

(** X4: where several keys of a mapping are converted to the same name, the
    value kept under that name is that of the last of them: a lookup in the
    rebuilt mapping is a lookup in the converted items read from the end;
    the rebuilt mapping has pairwise distinct keys and no more items than
    the input. *)
Theorem X4_convert_keys_last_wins :
  forall items,
  exists d,
    _convert_keys_to_snake_case (VDict items) = VDict d /\
    NoDup (keys d) /\
    (List.length d <= List.length items)%nat /\
    forall k, dict_get d k = dict_get (rev (map convert_item items)) k.
Proof.
  intros items. exists (dict_of (map convert_item items) []).
  split; [apply convert_dict|].
  assert (Hnd : NoDup (keys (dict_of (map convert_item items) []))).
  { apply DictFacts.dict_of_NoDup. constructor. }
  split; [exact Hnd|]. split.
  - rewrite <- (length_map convert_item items).
    apply NoDup_incl_length.
    + apply (NoDup_map_inv _ _ Hnd).
    + intros kv Hin. apply DictFacts.dict_of_In in Hin as [[]|Hin]. exact Hin.
  - intros k. rewrite ConvertMore.dict_get_dict_of.
    now destruct (dict_get (rev (map convert_item items)) k).
Qed.

(** X5: a value whose mappings have, at every depth, pairwise distinct keys
    of code points 0 to 255 without uppercase letters, those of A-Z and
    those of the upper half alike, is returned as it is. *)
Theorem X5_convert_keys_fixes_snake_keyed (v : value) :
  snake_keyed v -> _convert_keys_to_snake_case v = v.
Proof.
  induction v as [| | | | |elems IH|items IH|cls attrs _] using value_ind;
    try reflexivity.
  - intros H. apply ConvertMore.snake_keyed_elems in H.
    rewrite convert_list. f_equal.
    induction IH as [|x r Hx _ IHr]; [reflexivity|].
    inversion H; subst. simpl. rewrite Hx by assumption. now rewrite IHr.
  - intros [Hnd H]. apply ConvertMore.snake_keyed_items in H.
    rewrite convert_dict.
    assert (E : map convert_item items = items).
    { clear Hnd. induction IH as [|[k x] r Hx _ IHr]; [reflexivity|].
      inversion H as [|? ? [Hk Hs] Hr]; subst. simpl in *.
      unfold convert_item at 1. simpl.
      rewrite (X1_snake_case_fixes_lowercase k Hk), Hx by assumption.
      now rewrite IHr. }
    rewrite E. f_equal. now apply (DictFacts.dict_of_distinct _ []).
Qed.

Lemma X5_convert_keys_fixes_snake_keyed_witness :
  _convert_keys_to_snake_case
    (VDict [("beats", VList [VDict [("bpm", VInt 120)]]); ("id", VInt 1)]%string) =
  VDict [("beats", VList [VDict [("bpm", VInt 120)]]); ("id", VInt 1)]%string.
Proof.
  apply (X5_convert_keys_fixes_snake_keyed
           (VDict [("beats", VList [VDict [("bpm", VInt 120)]]); ("id", VInt 1)]%string)).
  simpl. unfold no_upper. simpl.
  repeat split; try distinct_strings; repeat constructor.
Defined.

(** ** [_from_dict] *)

Module FromDictMore.
Import DictFacts FromDictFacts.

Lemma loop_body_plain rec fields kw name v t :
  field_types fields name = Some t -> plain t = true ->
  loop_body rec fields kw name v = Ok (dict_set kw name v).
Proof.
  unfold loop_body. intros ->.
  destruct t as [c|[|[c|a|c fs] more]|c fs]; simpl; try discriminate; reflexivity.
Qed.

Lemma field_types_plain fields name t :
  Forall (fun f => plain (field_type f) = true) fields ->
  field_types fields name = Some t -> plain t = true.
Proof.
  induction 1 as [|[n t' d] r Hf _ IH]; simpl; [discriminate|].
  destruct (String.eqb n name); [|exact IH].
  now intros [= <-].
Qed.

Lemma field_types_declared fields f :
  In f fields -> field_types fields (field_name f) <> None.
Proof.
  induction fields as [|[n t d] r IH]; simpl; [contradiction|].
  intros [<-|Hin]; simpl.
  - now rewrite String.eqb_refl.
  - destruct (String.eqb n (field_name f)); [discriminate | now apply IH].
Qed.

(** Over fields that are all plain the loop makes the dict of the declared
    items. *)
Lemma for_items_plain rec fields items :
  Forall (fun f => plain (field_type f) = true) fields ->
  forall kw,
    for_items rec fields items kw =
    Ok (dict_of (filter (declared fields) items) kw).
Proof.
  intros Hp. induction items as [|[name v] r IH]; intros kw; [reflexivity|].
  cbn [for_items filter]. unfold declared at 1. cbn [fst].
  destruct (field_types fields name) as [t|] eqn:E.
  - rewrite (loop_body_plain _ _ _ _ _ t E (field_types_plain _ _ _ Hp E)).
    simpl. apply IH.
  - rewrite loop_body_undeclared by exact E. simpl. apply IH.
Qed.

Lemma dict_get_absent d k : dict_get d k = None <-> ~ In k (keys d).
Proof.
  induction d as [|[k' v'] r IH]; simpl; [tauto|].
  destruct (String.eqb k' k) eqn:E.
  - apply String.eqb_eq in E. split; [discriminate | tauto].
  - apply String.eqb_neq in E. rewrite IH. tauto.
Qed.

Lemma dict_of_keys pairs k :
  In k (keys (dict_of pairs [])) <-> In k (keys pairs).
Proof.
  unfold keys. rewrite !in_map_iff. split.
  - intros ([k' v] & <- & Hin). apply dict_of_In in Hin as [[]|Hin].
    now exists (k', v).
  - intros ([k' v] & <- & Hin).
    pose proof (dict_of_has_keys _ [] _ _ Hin) as H.
    unfold keys in H. now apply in_map_iff in H.
Qed.

Lemma declared_keys fields items k :
  In k (keys (filter (declared fields) items)) <->
  In k (keys items) /\ field_types fields k <> None.
Proof.
  unfold keys. rewrite !in_map_iff. split.
  - intros ([k' v] & <- & Hin). apply filter_In in Hin as [Hin Hd].
    split; [now exists (k', v)|].
    unfold declared in Hd. simpl in *. now destruct (field_types fields k').
  - intros [([k' v] & <- & Hin) Hd]. exists (k', v). split; [reflexivity|].
    apply filter_In. split; [exact Hin|].
    unfold declared. simpl in *. now destruct (field_types fields k').
Qed.

Lemma missing_fields_nil fields kw :
  missing_fields fields kw = [] <->
  forall f, In f fields -> field_default f = None -> In (field_name f) (keys kw).
Proof.
  unfold missing_fields. induction fields as [|f r IH]; simpl; [tauto|].
  destruct (dict_get kw (field_name f)) eqn:Eg.
  - rewrite IH. split.
    + intros H g [<-|Hg] Hd; [|now apply H].
      destruct (in_dec string_dec (field_name f) (keys kw)) as [Hin|Hn]; [exact Hin|].
      apply dict_get_absent in Hn. congruence.
    + intros H g Hg. apply H. now right.
  - destruct (field_default f) eqn:Ed.
    + rewrite IH. split.
      * intros H g [<-|Hg] Hd; [congruence | now apply H].
      * intros H g Hg. apply H. now right.
    + simpl. split; [discriminate|].
      intros H. exfalso.
      apply dict_get_absent in Eg. apply Eg, (H f); [now left | exact Ed].
Qed.

End FromDictMore.

(** X6: whatever [_from_dict] returns is an instance of the dataclass it
    was given, made from a mapping, with exactly the declared fields as
    attributes, in the order of their declaration. *)
Theorem X6_from_dict_result_shape (model : pytype) (data res : value) :
  _from_dict model data = Ok res ->
  exists cls fields items attrs,
    model = TData cls fields /\ data = VDict items /\
    res = VObj cls attrs /\ keys attrs = map field_name fields.
Proof.
  destruct model as [c|a|cls fields];
    destruct data as [| | | | | |items|]; try discriminate.
  intros H. apply FromDictFacts.from_dict_Ok in H as (kw & _ & _ & ->).
  exists cls, fields, items, (map (attr_of kw) fields).
  repeat split. unfold keys. rewrite map_map. reflexivity.
Qed.

Lemma X6_from_dict_result_shape_witness :
  exists cls fields items attrs,
    Artist = TData cls fields /\ artist_data = VDict items /\
    artist_obj = VObj cls attrs /\ keys attrs = map field_name fields.
Proof.
  apply (X6_from_dict_result_shape Artist artist_data artist_obj). reflexivity.
Defined.

(** X7: a field whose type is neither a dataclass nor a list of
    dataclasses receives the value of the mapping as it is, whatever that
    value is. *)
Theorem X7_plain_field_copied
        (cls : string) (fields : list field) (items : list (string * value))
        (name : string) (t : pytype) (v res : value) :
  NoDup (keys items) -> In (name, v) items ->
  field_types fields name = Some t -> plain t = true ->
  _from_dict (TData cls fields) (VDict items) = Ok res ->
  exists attrs, res = VObj cls attrs /\ dict_get attrs name = Some v.
Proof.
  intros Hnd Hin Ht Hp H.
  apply FromDictFacts.from_dict_Ok in H as (kw & Hkw & _ & ->).
  destruct (FromDictFacts.for_items_at _ _ _ _ _ _ _ Hnd Hin Hkw)
    as (kw1 & kw2 & Hb & _ & Hget).
  rewrite (FromDictMore.loop_body_plain _ _ _ _ _ t Ht Hp) in Hb.
  injection Hb as <-.
  exists (map (attr_of kw) fields). split; [reflexivity|].
  apply (FromDictFacts.attr_assigned _ _ _ _ _ Ht).
  now rewrite Hget, DictFacts.dict_get_set.
Qed.

Lemma X7_plain_field_copied_witness :
  exists attrs,
    VObj "Artist" [("id", VList [VInt 2]); ("name", VDict [])]%string =
    VObj "Artist" attrs /\
    dict_get attrs "id" = Some (VList [VInt 2]).
Proof.
  apply (X7_plain_field_copied "Artist" (fields_of Artist)
           [("id", VList [VInt 2]); ("name", VDict [])]%string "id" t_int).
  - distinct_strings.
  - simpl. left. reflexivity.
  - reflexivity.
  - reflexivity.
  - reflexivity.
Defined.

(** X8: for a dataclass whose fields are all plain, [_from_dict] on a
    mapping is the constructor applied to the items that name a field; it
    returns a record exactly when every field without a default is a key
    of the mapping. *)
Theorem X8_flat_record_criterion
        (cls : string) (fields : list field) (items : list (string * value)) :
  Forall (fun f => plain (field_type f) = true) fields ->
  _from_dict (TData cls fields) (VDict items) =
  construct cls fields (dict_of (filter (declared fields) items) []) /\
  ((exists res, _from_dict (TData cls fields) (VDict items) = Ok res) <->
   (forall f, In f fields -> field_default f = None ->
              In (field_name f) (keys items))).
Proof.
  intros Hp.
  assert (E : _from_dict (TData cls fields) (VDict items) =
              construct cls fields (dict_of (filter (declared fields) items) [])).
  { rewrite FromDictFacts.from_dict_dataclass.
    now rewrite (FromDictMore.for_items_plain _ _ _ Hp). }
  split; [exact E|]. rewrite E.
  set (kw := dict_of (filter (declared fields) items) []).
  assert (Hk : forall f, In f fields ->
                 (In (field_name f) (keys kw) <-> In (field_name f) (keys items))).
  { intros f Hf. unfold kw.
    rewrite FromDictMore.dict_of_keys, FromDictMore.declared_keys.
    pose proof (FromDictMore.field_types_declared _ _ Hf). tauto. }
  destruct (FromDictFacts.construct_cases cls fields kw) as [[Hm Ec]|[Hm Ec]];
    rewrite Ec.
  - split; [|eauto]. intros _ f Hf Hd. apply Hk; [exact Hf|].
    now apply (proj1 (FromDictMore.missing_fields_nil fields kw) Hm).
  - split; [intros [res H]; discriminate H|].
    intros H. exfalso. apply Hm.
    apply FromDictMore.missing_fields_nil. intros f Hf Hd.
    apply Hk; [exact Hf | now apply H].
Qed.

Lemma X8_flat_record_criterion_witness :
  _from_dict (TData "Revision" (fields_of Revision))
             (VDict [("id", VInt 1); ("extra", VNone)]%string) =
  construct "Revision" (fields_of Revision)
            (dict_of (filter (declared (fields_of Revision))
                             [("id", VInt 1); ("extra", VNone)]%string) []) /\
  ((exists res, _from_dict (TData "Revision" (fields_of Revision))
                           (VDict [("id", VInt 1); ("extra", VNone)]%string) = Ok res) <->
   (forall f, In f (fields_of Revision) -> field_default f = None ->
              In (field_name f) (keys [("id", VInt 1); ("extra", VNone)]%string))).
Proof.
  apply (X8_flat_record_criterion "Revision" (fields_of Revision)
           [("id", VInt 1); ("extra", VNone)]%string).
  simpl. repeat constructor.
Defined.

(** X9: an element that is no mapping inside the sequence given for a
    list-of-dataclasses field is not passed over: the call raises an
    error and returns no record. *)
Theorem X9_list_element_must_be_mapping
        (cls : string) (fields : list field) (items : list (string * value))
        (name ecls : string) (efields : list field) (more : list pytype)
        (l : list value) (x : value) :
  NoDup (keys items) -> In (name, VList l) items ->
  field_types fields name = Some (TList (TData ecls efields :: more)) ->
  In x l -> is_dict x = false ->
  exists e, _from_dict (TData cls fields) (VDict items) = Error e.
Proof.
  intros Hnd Hin Ht Hx Hd.
  destruct (_from_dict (TData cls fields) (VDict items)) as [res|e] eqn:H;
    [exfalso | now exists e].
  destruct (list_field_materialized _ _ _ _ _ _ _ _ _ Hnd Hin Ht H)
    as (rs & attrs & _ & _ & Hall).
  apply In_nth_error in Hx as [i Hi].
  destruct (Forall2_nth _ _ _ Hall i x Hi) as (r & _ & Hr).
  destruct x; simpl in Hr; discriminate.
Qed.

Lemma X9_list_element_must_be_mapping_witness :
  exists e,
    _from_dict (TData "BeatInfo" (fields_of BeatInfo))
               (VDict [("beats"%string, VList [beat_data 0 0 1 1 120; VInt 7])]) = Error e.
Proof.
  apply (X9_list_element_must_be_mapping "BeatInfo" (fields_of BeatInfo)
           [("beats"%string, VList [beat_data 0 0 1 1 120; VInt 7])]
           "beats" "Beat" (fields_of Beat) []
           [beat_data 0 0 1 1 120; VInt 7] (VInt 7)).
  - distinct_strings.
  - simpl. left. reflexivity.
  - reflexivity.
  - simpl. right. left. reflexivity.
  - reflexivity.
Defined.

(** X10: the error of a nested record is the error of the call: when the
    items before it raise nothing, what [_from_dict] raises on the mapping
    of a dataclass field is raised as it is, whatever items follow. *)
Theorem X10_nested_error_propagates
        (cls : string) (fields : list field) (before after : list (string * value))
        (kw : dict) (name ncls : string) (nfields : list field)
        (sub : list (string * value)) (e : exn) :
  for_items _from_dict fields before [] = Ok kw ->
  field_types fields name = Some (TData ncls nfields) ->
  _from_dict (TData ncls nfields) (VDict sub) = Error e ->
  _from_dict (TData cls fields) (VDict (before ++ (name, VDict sub) :: after)) = Error e.
Proof.
  intros Hb Ht He.
  rewrite FromDictFacts.from_dict_dataclass, FromDictFacts.for_items_app, Hb.
  cbn [bind for_items]. unfold loop_body. rewrite Ht, He. reflexivity.
Qed.

Lemma X10_nested_error_propagates_witness :
  _from_dict (TData "Song" (fields_of Song))
    (VDict ([("id"%string, VInt 1)] ++
            ("artist"%string, VDict [("id"%string, VInt 2)]) :: song_items)) =
  Error (TypeError (MissingArguments "Artist" ["name"%string])).
Proof.
  apply (X10_nested_error_propagates "Song" (fields_of Song)
           [("id"%string, VInt 1)] song_items [("id"%string, VInt 1)]
           "artist" "Artist" (fields_of Artist)); reflexivity.
Defined.

(** ** The client *)

Module ClientMore.
Import Songle.

Lemma status_not_error status :
  (status < 400 \/ 600 <= status)%Z ->
  (400 <=? status)%Z && (status <? 600)%Z = false.
Proof.
  intros H. apply andb_false_iff.
  destruct H; [left; apply Z.leb_gt | right; apply Z.ltb_ge]; lia.
Qed.

Lemma get_body sess status text json path params :
  (forall url q, sess url q = Ok (Response status text json)) ->
  (status < 400 \/ 600 <= status)%Z ->
  _get sess path params =
  match json with
  | Ok v => Ok v
  | Error (HTTPError st body) =>
      Error (SongleApiException st ("Error response from API: " ++ body)%string)
  | Error (RequestException descr) =>
      Error (SongleApiException 500 ("Request failed: " ++ descr)%string)
  | Error e => Error e
  end.
Proof.
  intros H Hs. unfold _get. rewrite H. simpl. unfold raise_for_status. simpl.
  rewrite (status_not_error _ Hs). reflexivity.
Qed.

Lemma get_other_exception sess e path params :
  (forall url q, sess url q = Error e) -> is_request_exception e = false ->
  _get sess path params = Error e.
Proof.
  intros H He. unfold _get. rewrite H. simpl. destruct e; try reflexivity; discriminate.
Qed.

Lemma Forall2_map_left {A B C} (f : A -> B) (R : B -> C -> Prop) l rs :
  Forall2 R (map f l) rs <-> Forall2 (fun a r => R (f a) r) l rs.
Proof.
  revert rs. induction l as [|a l IH]; intros rs; simpl.
  - split; intros H; inversion H; constructor.
  - split; intros H; inversion H; subst; constructor; try assumption; now apply IH.
Qed.

Lemma dict_of_nonempty kv pairs : dict_of (kv :: pairs) [] <> [].
Proof.
  destruct kv as [k v]. intros E.
  pose proof (DictFacts.dict_of_has_keys ((k, v) :: pairs) [] k v (or_introl eq_refl)) as H.
  rewrite E in H. exact H.
Qed.

End ClientMore.

(** X11: a response whose status is from 400 to 599 makes every public
    method raise a [SongleApiException] with that status and with the
    message "Error response from API: " followed by the text of the
    response; the body is not decoded. *)
Theorem X11_error_status_surfaces
        (sess : session) (op : Songle.operation)
        (status : Z) (text : string) (json : result value) :
  (forall url q, sess url q = Ok (Response status text json)) ->
  (400 <= status < 600)%Z ->
  Songle.call sess op =
  Error (SongleApiException status ("Error response from API: " ++ text)%string).
Proof. intros H Hs. now apply (error_response_surfaces _ _ _ _ json). Qed.

Lemma X11_error_status_surfaces_witness :
  Songle.call (answering 503 "busy" (Ok (VList []))) (Songle.SearchSongs "miku") =
  Error (SongleApiException 503 "Error response from API: busy").
Proof.
  apply (X11_error_status_surfaces (answering 503 "busy" (Ok (VList [])))
           (Songle.SearchSongs "miku") 503 "busy" (Ok (VList []))).
  - intros url q. reflexivity.
  - lia.
Defined.

(** X12: a response whose status is below 400 or above 599 is taken as a
    success whatever the status: [_get] returns the decoded body and
    [_fetch_and_parse] the record made of the body with its keys
    converted. *)
Theorem X12_other_status_is_success
        (sess : session) (path : string) (params : query) (model : pytype)
        (status : Z) (text : string) (v : value) :
  (forall url q, sess url q = Ok (Response status text (Ok v))) ->
  (status < 400 \/ 600 <= status)%Z ->
  Songle._get sess path params = Ok v /\
  Songle._fetch_and_parse sess path model params =
  _from_dict model (_convert_keys_to_snake_case v).
Proof.
  intros H Hs.
  assert (E := ClientMore.get_body sess status text (Ok v) path params H Hs).
  split; [exact E|]. unfold Songle._fetch_and_parse. now rewrite E.
Qed.

Lemma X12_other_status_is_success_witness :
  Songle._get (answering 204 "" (Ok VNone)) "api/v1/song.json" [] = Ok VNone /\
  Songle._fetch_and_parse (answering 204 "" (Ok VNone)) "api/v1/song.json" Song [] =
  _from_dict Song (_convert_keys_to_snake_case VNone).
Proof.
  apply (X12_other_status_is_success (answering 204 "" (Ok VNone))
           "api/v1/song.json" [] Song 204 "" VNone).
  - intros url q. reflexivity.
  - left. lia.
Defined.

(** X13: an exception that is no [RequestException], raised by the
    session's [get] or by the decoding of the body of a response taken as
    a success, leaves every public method as it is, not wrapped in a
    [SongleApiException]. *)
Theorem X13_other_exceptions_not_wrapped
        (sess : session) (op : Songle.operation) (e : exn) :
  is_request_exception e = false ->
  (forall url q, sess url q = Error e) \/
  (exists status text,
      (status < 400 \/ 600 <= status)%Z /\
      forall url q, sess url q = Ok (Response status text (Error e))) ->
  Songle.call sess op = Error e.
Proof.
  intros He H. apply call_get_error. intros path params.
  destruct H as [H|(status & text & Hs & H)].
  - now apply ClientMore.get_other_exception.
  - rewrite (ClientMore.get_body sess status text (Error e) path params H Hs).
    destruct e; try reflexivity; discriminate.
Qed.

Lemma X13_other_exceptions_not_wrapped_witness :
  Songle.call (raising (OtherException "KeyboardInterrupt")) (Songle.GetChorus "u" None) =
  Error (OtherException "KeyboardInterrupt").
Proof.
  apply (X13_other_exceptions_not_wrapped
           (raising (OtherException "KeyboardInterrupt")) (Songle.GetChorus "u" None)).
  - reflexivity.
  - left. intros url q. reflexivity.
Defined.

(** X14: when the decoding of the body of a response taken as a success
    raises a [RequestException], every public method raises a
    [SongleApiException] with status 500 and the message
    "Request failed: " followed by the description, the status of the
    response being lost. *)
Theorem X14_decoding_failure_reported_as_500
        (sess : session) (op : Songle.operation)
        (status : Z) (text descr : string) :
  (forall url q, sess url q = Ok (Response status text (Error (RequestException descr)))) ->
  (status < 400 \/ 600 <= status)%Z ->
  Songle.call sess op =
  Error (SongleApiException 500 ("Request failed: " ++ descr)%string).
Proof.
  intros H Hs. apply call_get_error. intros path params.
  now rewrite (ClientMore.get_body sess status text _ path params H Hs).
Qed.

Lemma X14_decoding_failure_witness :
  Songle.call (answering 200 "<html>" (Error (RequestException "Expecting value")))
              (Songle.GetSongInfo "u") =
  Error (SongleApiException 500 "Request failed: Expecting value").
Proof.
  apply (X14_decoding_failure_reported_as_500
           (answering 200 "<html>" (Error (RequestException "Expecting value")))
           (Songle.GetSongInfo "u") 200 "<html>" "Expecting value").
  - intros url q. reflexivity.
  - left. lia.
Defined.

(** X15: on a body that is a list, [_fetch_and_parse_list] returns a list
    exactly when every element, its keys converted, materialises; the
    result then has the records of the elements in the order of the
    body. *)
Theorem X15_list_endpoint_elementwise
        (sess : session) (path : string) (params : query) (model : pytype)
        (status : Z) (text : string) (l : list value) (res : value) :
  (forall url q, sess url q = Ok (Response status text (Ok (VList l)))) ->
  (status < 400 \/ 600 <= status)%Z ->
  (Songle._fetch_and_parse_list sess path model params = Ok res <->
   exists rs,
     res = VList rs /\
     Forall2 (fun item r => _from_dict model (_convert_keys_to_snake_case item) = Ok r)
             l rs).
Proof.
  intros H Hs. unfold Songle._fetch_and_parse_list.
  rewrite (ClientMore.get_body sess status text (Ok (VList l)) path params H Hs).
  cbn [bind]. rewrite convert_list. cbn [Songle.iterate bind].
  split.
  - intros E. apply FromDictFacts.bind_Ok in E as (rs & Hrs & [= <-]).
    exists rs. split; [reflexivity|].
    apply FromDictFacts.each_item_Forall2 in Hrs.
    now apply ClientMore.Forall2_map_left in Hrs.
  - intros (rs & -> & Hall).
    apply (ClientMore.Forall2_map_left _ (fun c r => _from_dict model c = Ok r)) in Hall.
    apply FromDictFacts.each_item_Forall2 in Hall. now rewrite Hall.
Qed.

Lemma X15_list_endpoint_witness :
  Songle._fetch_and_parse_list
    (answering 200 "" (Ok (VList [VDict [("id", VInt 2); ("name", VStr "A")]%string])))
    "api/v1/x.json" Artist [] = Ok (VList [artist_obj]) <->
  exists rs,
    VList [artist_obj] = VList rs /\
    Forall2 (fun item r => _from_dict Artist (_convert_keys_to_snake_case item) = Ok r)
            [VDict [("id", VInt 2); ("name", VStr "A")]%string] rs.
Proof.
  apply (X15_list_endpoint_elementwise
           (answering 200 "" (Ok (VList [VDict [("id", VInt 2); ("name", VStr "A")]%string])))
           "api/v1/x.json" [] Artist 200 "").
  - intros url q. reflexivity.
  - left. lia.
Defined.

(** X16: on a body that is no list, [_fetch_and_parse_list] for a dataclass
    iterates over what the body offers: a JSON object with at least one key
    fails on its first key, a string, with [AttributeError] for [items]; an
    empty object gives the empty list; null, a boolean and a number are not
    iterable. *)
Theorem X16_list_endpoint_other_bodies
        (sess : session) (path : string) (params : query)
        (cls : string) (fields : list field)
        (status : Z) (text : string) (raw : value) :
  (forall url q, sess url q = Ok (Response status text (Ok raw))) ->
  (status < 400 \/ 600 <= status)%Z ->
  match raw with
  | VDict [] =>
      Songle._fetch_and_parse_list sess path (TData cls fields) params = Ok (VList [])
  | VDict (_ :: _) =>
      Songle._fetch_and_parse_list sess path (TData cls fields) params =
      Error (AttributeError "items")
  | VNone | VBool _ | VInt _ | VFloat _ =>
      Songle._fetch_and_parse_list sess path (TData cls fields) params =
      Error (TypeError NotIterable)
  | _ => True
  end.
Proof.
  intros H Hs. unfold Songle._fetch_and_parse_list.
  rewrite (ClientMore.get_body sess status text (Ok raw) path params H Hs).
  cbn [bind].
  destruct raw as [| | | | | |[|kv items]|]; try reflexivity; try exact I.
  rewrite convert_dict.
  destruct (dict_of (map convert_item (kv :: items)) []) as [|[k v] d] eqn:E.
  - exfalso. exact (ClientMore.dict_of_nonempty _ _ E).
  - reflexivity.
Qed.

Lemma X16_list_endpoint_other_bodies_witness :
  Songle._fetch_and_parse_list
    (answering 200 "" (Ok (VDict [("error"%string, VStr "no such song")])))
    "api/v1/song/beat_revisions.json" (TData "Revision" (fields_of Revision)) [] =
  Error (AttributeError "items").
Proof.
  apply (X16_list_endpoint_other_bodies
           (answering 200 "" (Ok (VDict [("error"%string, VStr "no such song")])))
           "api/v1/song/beat_revisions.json" [] "Revision" (fields_of Revision)
           200 "" (VDict [("error"%string, VStr "no such song")])).
  - intros url q. reflexivity.
  - left. lia.
Defined.
